(** * tradutor-tempo-real: the translation proxy and the client state

    A shallow embedding of
    - [src/app/api/translate/route.ts]: the [POST] handler of the proxy, and
    - [src/app/page.tsx]: the state of [TranslatorApp] and its handlers
      ([handleTranslate], [swapLanguages], [loadFromHistory], ...).

    JavaScript strings are sequences of UTF-16 code units; the outside world
    (the request body, the environment, the OpenAI client, [fetch], the
    clock) is passed in explicitly, and what a handler does to the outside
    world (provider calls, toasts, requests) is returned as a log. *)

From Stdlib Require Import NArith String Ascii DecimalString DecimalN QArith.
From stdpp Require Import base decidable option list relations.

Local Open Scope N_scope.
Local Open Scope list_scope.

(** ** JavaScript strings *)

Module JsString.

(** A UTF-16 code unit. *)
Definition code_unit := N.

(** A JavaScript string value. *)
Definition t := list code_unit.

Definition empty : t := [].

(** *** String literals

    The literals of the sources are written here as Rocq strings, whose
    characters are the bytes of the UTF-8 encoding of the source text;
    [lit] decodes them to the code units the JavaScript engine holds. *)

Fixpoint utf8_decode (bs : list N) (acc : N) (need : nat) : list N :=
  match bs with
  | [] => []
  | b :: rest =>
    match need with
    | O =>
      if b <? 128 then b :: utf8_decode rest 0 O
      else if b <? 224 then utf8_decode rest (b - 192) 1%nat
      else if b <? 240 then utf8_decode rest (b - 224) 2%nat
      else utf8_decode rest (b - 240) 3%nat
    | S O => (acc * 64 + (b - 128)) :: utf8_decode rest 0 O
    | S n => utf8_decode rest (acc * 64 + (b - 128)) n
    end
  end.

Definition utf16_encode (cp : N) : list code_unit :=
  if cp <? 65536 then [cp]
  else [55296 + (cp - 65536) / 1024; 56320 + (cp - 65536) mod 1024].

Definition bytes_of (s : string) : list N :=
  List.map N_of_ascii (list_ascii_of_string s).

Definition lit (s : string) : t :=
  List.concat (List.map utf16_encode (utf8_decode (bytes_of s) 0 O)).

(** *** Strict equality of two strings *)
Fixpoint eqb (a b : t) : bool :=
  match a, b with
  | [], [] => true
  | x :: a', y :: b' => (x =? y) && eqb a' b'
  | _, _ => false
  end.

(** *** Truthiness: [!s] holds of the empty string only. *)
Definition truthy (s : t) : bool :=
  match s with [] => false | _ :: _ => true end.

(** *** [String.prototype.trim]

    ECMAScript strips WhiteSpace and LineTerminator code points. *)
Definition is_white (c : code_unit) : bool :=
  (c =? 9) || (c =? 10) || (c =? 11) || (c =? 12) || (c =? 13) ||
  (c =? 32) || (c =? 160) || (c =? 5760) ||
  ((8192 <=? c) && (c <=? 8202)) ||
  (c =? 8232) || (c =? 8233) || (c =? 8239) || (c =? 8287) ||
  (c =? 12288) || (c =? 65279).

Fixpoint trimStart (s : t) : t :=
  match s with
  | [] => []
  | c :: rest => if is_white c then trimStart rest else s
  end.

Definition trimEnd (s : t) : t := reverse (trimStart (reverse s)).

Definition trim (s : t) : t := trimEnd (trimStart s).

(** *** [String.prototype.includes] *)
Fixpoint startsWith (s needle : t) : bool :=
  match needle, s with
  | [], _ => true
  | _ :: _, [] => false
  | n :: needle', c :: s' => (c =? n) && startsWith s' needle'
  end.

Fixpoint includes (s needle : t) : bool :=
  startsWith s needle ||
  match s with
  | [] => false
  | _ :: s' => includes s' needle
  end.

(** *** [Number.prototype.toString] of a non-negative integer below 2^53:
    its decimal digits. *)
Definition of_nat_number (n : N) : t :=
  bytes_of (NilEmpty.string_of_uint (N.to_uint n)).

End JsString.

Abbreviation jsstring := JsString.t.
Notation "'js' s" := (JsString.lit s%string) (at level 9, s at level 0, only parsing).

(** Literals stay folded while a handler is unfolded. *)
Arguments JsString.lit : simpl never.

(** ** Values of type [string | undefined]

    A field of a parsed body, an environment variable, the result of a
    table lookup or of an optional chain. [None] is [undefined]. *)

Module Maybe.

Definition truthy (v : option jsstring) : bool :=
  match v with Some s => JsString.truthy s | None => false end.

(** [${v}] in a template literal, and [o[v]] as a property key. *)
Definition to_string (v : option jsstring) : jsstring :=
  match v with Some s => s | None => js "undefined" end.

(** [v || d], for a string [d]. *)
Definition or_else (v : option jsstring) (d : jsstring) : jsstring :=
  if truthy v then to_string v else d.

End Maybe.

(** ** The proxy: [src/app/api/translate/route.ts] *)

Module Proxy.

(** A thrown value, as far as the [catch] clause looks at it:
    [error?.status] and [error?.message], [None] where they are
    [undefined]. *)
Record JsError := { status : option N; message : option jsstring }.

(** What a call either returns or throws. *)
Inductive Outcome (A : Type) : Type :=
| Returns (a : A)
| Throws (e : JsError).

Arguments Returns {A} a.
Arguments Throws {A} e.

(** The destructured result of [await request.json()]. *)
Record Body := {
  text : option jsstring;
  sourceLang : option jsstring;
  targetLang : option jsstring;
}.

(** [request.json()] rejects, or the destructuring throws, or the three
    fields are bound. *)
Record NextRequest := { json : Outcome Body }.

(** [process.env] *)
Record Env := { OPENAI_API_KEY : option jsstring }.

Inductive ResponseBody :=
| ErrorBody (error : jsstring)
| TranslationBody (translation : jsstring).

Record NextResponse := { resp_status : N; resp_body : ResponseBody }.

(** [NextResponse.json(body, { status })]; the status defaults to 200. *)
Definition NextResponse_json (body : ResponseBody) (init : option N) : NextResponse :=
  {| resp_status := default 200 init; resp_body := body |}.

(** *** The OpenAI client *)

Inductive Role := system | user.

Record ChatMessage := { role : Role; content : jsstring }.

Record ChatRequest := {
  model : jsstring;
  messages : list ChatMessage;
  temperature : Q;
  max_tokens : N;
}.

(** [completion.choices[0]?.message?.content] *)
Record CompletionMessage := { msg_content : option jsstring }.
Record Choice := { choice_message : option CompletionMessage }.
Record ChatCompletion := { choices : list Choice }.

(** One call of [openai.chat.completions.create] on a client built with
    [new OpenAI({ apiKey })]. *)
Record ProviderCall := { call_apiKey : option jsstring; call_request : ChatRequest }.

(** The provider, as the handler sees it. *)
Definition Provider := ProviderCall -> Outcome ChatCompletion.

(** *** The handler monad: exceptions, and the log of what the handler
    does to the outside *)

Inductive Effect :=
| completions_create (c : ProviderCall)
| console_error (e : JsError).

Definition Handler (A : Type) : Type :=
  list Effect -> Outcome A * list Effect.

Definition ret {A} (a : A) : Handler A := fun log => (Returns a, log).

Definition bind {A B} (m : Handler A) (k : A -> Handler B) : Handler B :=
  fun log =>
    match m log with
    | (Returns a, log') => k a log'
    | (Throws e, log') => (Throws e, log')
    end.

Definition await {A} (o : Outcome A) : Handler A := fun log => (o, log).

Definition create (openai : Provider) (c : ProviderCall) : Handler ChatCompletion :=
  fun log => (openai c, log ++ [completions_create c]).

Definition log_error (e : JsError) : Handler unit :=
  fun log => (Returns tt, log ++ [console_error e]).

(** The provider calls among the effects. *)
Definition provider_calls (log : list Effect) : list ProviderCall :=
  omap (fun eff => match eff with completions_create c => Some c | _ => None end) log.

Definition try_catch {A} (body : Handler A) (handler : JsError -> Handler A) : Handler A :=
  fun log =>
    match body log with
    | (Returns a, log') => (Returns a, log')
    | (Throws e, log') => handler e log'
    end.

Notation "x <- m ;; k" := (bind m (fun x => k))
  (at level 90, m at next level, right associativity).

Section Handler.

(** An object literal inherits from [Object.prototype]: for a key that
    is not an own property, [o[key]] is what [Object.prototype] holds
    under that key ([constructor], [toString], ...). The engine owns
    that object; [object_prototype key] is the text such a member
    interpolates to, [None] where there is none. *)
Context (object_prototype : jsstring -> option jsstring).

Fixpoint own_property (o : list (jsstring * jsstring)) (key : jsstring) : option jsstring :=
  match o with
  | [] => None
  | (k, v) :: o' => if JsString.eqb k key then Some v else own_property o' key
  end.

(** [o[key]] *)
Definition get (o : list (jsstring * jsstring)) (key : option jsstring) : option jsstring :=
  match own_property o (Maybe.to_string key) with
  | Some v => Some v
  | None => object_prototype (Maybe.to_string key)
  end.

Definition languageNames : list (jsstring * jsstring) :=
  [ (js "pt", js "Português");
    (js "en", js "Inglês");
    (js "es", js "Espanhol");
    (js "fr", js "Francês");
    (js "de", js "Alemão");
    (js "it", js "Italiano");
    (js "ja", js "Japonês");
    (js "ko", js "Coreano");
    (js "zh", js "Chinês");
    (js "ar", js "Árabe");
    (js "ru", js "Russo");
    (js "hi", js "Hindi") ].

Definition prompt (text sourceLang targetLang : option jsstring) : jsstring :=
  js "Traduza o seguinte texto de " ++ Maybe.to_string (get languageNames sourceLang) ++
  js " para " ++ Maybe.to_string (get languageNames targetLang) ++
  js ". 
Retorne APENAS a tradução, sem explicações ou texto adicional.

Texto: " ++ Maybe.to_string text.

Definition chat_request (prompt : jsstring) : ChatRequest :=
  {| model := js "gpt-4o";
     messages :=
       [ {| role := system;
            content := js "Você é um tradutor profissional especializado em tradução precisa e natural entre idiomas. Retorne apenas a tradução solicitada, sem explicações." |};
         {| role := user; content := prompt |} ];
     temperature := 3 # 10;
     max_tokens := 1000 |}.

(** The call of lines 24 to 62: the client is built with [apiKey], and
    [create] is asked for a completion of the [prompt]. *)
Definition completion_call (apiKey text sourceLang targetLang : option jsstring)
  : ProviderCall :=
  let prompt := prompt text sourceLang targetLang in
  {| call_apiKey := apiKey; call_request := chat_request prompt |}.

(** [completion.choices[0]?.message?.content] *)
Definition first_content (completion : ChatCompletion) : option jsstring :=
  c ← head (choices completion); m ← choice_message c; msg_content m.

(** [completion.choices[0]?.message?.content?.trim() || ""] *)
Definition translation_of (completion : ChatCompletion) : jsstring :=
  Maybe.or_else (JsString.trim <$> first_content completion) (js "").

(** The [try] block. *)
Definition try_block (request : NextRequest) (env : Env) (openai : Provider)
  : Handler NextResponse :=
  body <- await (json request) ;;
  let text := text body in
  let sourceLang := sourceLang body in
  let targetLang := targetLang body in
  if negb (Maybe.truthy text) || negb (Maybe.truthy sourceLang) || negb (Maybe.truthy targetLang) then
    ret (NextResponse_json (ErrorBody (js "Parâmetros inválidos")) (Some 400))
  else
    let apiKey := OPENAI_API_KEY env in
    if negb (Maybe.truthy apiKey) then
      ret (NextResponse_json
             (ErrorBody (js "Chave da OpenAI não configurada. Configure OPENAI_API_KEY nas variáveis de ambiente."))
             (Some 500))
    else
      completion <- create openai (completion_call apiKey text sourceLang targetLang) ;;
      let translation := translation_of completion in
      ret (NextResponse_json (TranslationBody translation) None).

(** The [catch] clause. *)
Definition catch_clause (error : JsError) : Handler NextResponse :=
  _ <- log_error error ;;
  if bool_decide (status error = Some 401) ||
     match message error with
     | Some m => JsString.includes m (js "Incorrect API key")
     | None => false
     end
  then
    ret (NextResponse_json
           (ErrorBody (js "Chave da OpenAI inválida. Verifique sua configuração."))
           (Some 401))
  else if bool_decide (status error = Some 429) then
    ret (NextResponse_json
           (ErrorBody (js "Limite de uso da API atingido. Tente novamente mais tarde."))
           (Some 429))
  else
    ret (NextResponse_json
           (ErrorBody (js "Erro ao processar tradução. Tente novamente."))
           (Some 500)).

Definition POST_handler (request : NextRequest) (env : Env) (openai : Provider)
  : Handler NextResponse :=
  try_catch (try_block request env openai) catch_clause.

(** Running the handler: the response sent, and the provider calls made.
    The [catch] clause returns on every path, so the [Throws] case
    below is never taken ([POST_handler_returns]). *)
Definition POST (request : NextRequest) (env : Env) (openai : Provider)
  : option NextResponse * list Effect :=
  match POST_handler request env openai [] with
  | (Returns r, log) => (Some r, log)
  | (Throws _, log) => (None, log)
  end.

End Handler.

End Proxy.

(** ** The client: [src/app/page.tsx] *)

Module Client.

(** [interface Translation] *)
Record Translation := {
  id : jsstring;
  from : jsstring;
  to : jsstring;
  original : jsstring;
  translated : jsstring;
  timestamp : N;
}.

Record Language := { code : jsstring; name : jsstring }.

Definition languages : list Language :=
  [ {| code := js "pt"; name := js "Português" |};
    {| code := js "en"; name := js "Inglês" |};
    {| code := js "es"; name := js "Espanhol" |};
    {| code := js "fr"; name := js "Francês" |};
    {| code := js "de"; name := js "Alemão" |};
    {| code := js "it"; name := js "Italiano" |};
    {| code := js "ja"; name := js "Japonês" |};
    {| code := js "ko"; name := js "Coreano" |};
    {| code := js "zh"; name := js "Chinês" |};
    {| code := js "ar"; name := js "Árabe" |};
    {| code := js "ru"; name := js "Russo" |};
    {| code := js "hi"; name := js "Hindi" |} ].

(** The [useState] cells of [TranslatorApp]. *)
Record State := {
  sourceText : jsstring;
  translatedText : jsstring;
  sourceLang : jsstring;
  targetLang : jsstring;
  isTranslating : bool;
  history : list Translation;
  showHistory : bool;
  copied : bool;
  apiError : option jsstring;
}.

Definition initial : State :=
  {| sourceText := js "";
     translatedText := js "";
     sourceLang := js "pt";
     targetLang := js "en";
     isTranslating := false;
     history := [];
     showHistory := false;
     copied := false;
     apiError := None |}.

(** The setters. *)
Definition setSourceText (v : jsstring) (s : State) : State :=
  {| sourceText := v; translatedText := translatedText s;
     sourceLang := sourceLang s; targetLang := targetLang s;
     isTranslating := isTranslating s; history := history s;
     showHistory := showHistory s; copied := copied s; apiError := apiError s |}.

Definition setTranslatedText (v : jsstring) (s : State) : State :=
  {| sourceText := sourceText s; translatedText := v;
     sourceLang := sourceLang s; targetLang := targetLang s;
     isTranslating := isTranslating s; history := history s;
     showHistory := showHistory s; copied := copied s; apiError := apiError s |}.

Definition setSourceLang (v : jsstring) (s : State) : State :=
  {| sourceText := sourceText s; translatedText := translatedText s;
     sourceLang := v; targetLang := targetLang s;
     isTranslating := isTranslating s; history := history s;
     showHistory := showHistory s; copied := copied s; apiError := apiError s |}.

Definition setTargetLang (v : jsstring) (s : State) : State :=
  {| sourceText := sourceText s; translatedText := translatedText s;
     sourceLang := sourceLang s; targetLang := v;
     isTranslating := isTranslating s; history := history s;
     showHistory := showHistory s; copied := copied s; apiError := apiError s |}.

Definition setIsTranslating (v : bool) (s : State) : State :=
  {| sourceText := sourceText s; translatedText := translatedText s;
     sourceLang := sourceLang s; targetLang := targetLang s;
     isTranslating := v; history := history s;
     showHistory := showHistory s; copied := copied s; apiError := apiError s |}.

Definition setHistory (v : list Translation) (s : State) : State :=
  {| sourceText := sourceText s; translatedText := translatedText s;
     sourceLang := sourceLang s; targetLang := targetLang s;
     isTranslating := isTranslating s; history := v;
     showHistory := showHistory s; copied := copied s; apiError := apiError s |}.

Definition setShowHistory (v : bool) (s : State) : State :=
  {| sourceText := sourceText s; translatedText := translatedText s;
     sourceLang := sourceLang s; targetLang := targetLang s;
     isTranslating := isTranslating s; history := history s;
     showHistory := v; copied := copied s; apiError := apiError s |}.

Definition setCopied (v : bool) (s : State) : State :=
  {| sourceText := sourceText s; translatedText := translatedText s;
     sourceLang := sourceLang s; targetLang := targetLang s;
     isTranslating := isTranslating s; history := history s;
     showHistory := showHistory s; copied := v; apiError := apiError s |}.

Definition setApiError (v : option jsstring) (s : State) : State :=
  {| sourceText := sourceText s; translatedText := translatedText s;
     sourceLang := sourceLang s; targetLang := targetLang s;
     isTranslating := isTranslating s; history := history s;
     showHistory := showHistory s; copied := copied s; apiError := v |}.

(** The body of the request [handleTranslate] sends. *)
Record TranslateRequest := {
  req_text : jsstring;
  req_sourceLang : jsstring;
  req_targetLang : jsstring;
}.

(** What a handler does besides setting state. *)
Inductive Effect :=
| toast_error (m : jsstring)
| toast_success (m : jsstring)
| fetch (url : jsstring) (body : TranslateRequest)
| console_error
| clipboard_writeText (s : jsstring)
| setTimeout (ms : N)
| speechSynthesis_speak (text lang : jsstring).

(** How the awaited part of [handleTranslate] goes:
    - [Rejected]: [fetch] or [response.json()] rejects, or reading [data]
      throws;
    - [NotOk error]: [!response.ok], with [data.error];
    - [Ok translation]: [response.ok], with [data.translation], the string
      the proxy puts there. *)
Inductive FetchOutcome :=
| Rejected
| NotOk (error : option jsstring)
| Ok (translation : jsstring).

(** [Date.now()] and [new Date()] at the time the record is built. *)
Record Clock := { Date_now : N; new_Date : N }.

(** A handler is a closure of one render [r]: it reads the [useState]
    values of that render, and its setters write the current state [s]. *)

Definition newTranslation (r : State) (translation : jsstring) (clock : Clock) : Translation :=
  {| id := JsString.of_nat_number (Date_now clock);
     from := sourceLang r;
     to := targetLang r;
     original := sourceText r;
     translated := translation;
     timestamp := new_Date clock |}.

(** [handleTranslate] up to its [await]: [None] when it returned at the
    guard, [Some r] when the request of render [r] is in flight. *)
Definition handleTranslate_begin (r : State) (s : State)
  : State * list Effect * option State :=
  if negb (JsString.truthy (JsString.trim (sourceText r))) then
    (s, [toast_error (js "Digite um texto para traduzir")], None)
  else
    (setApiError None (setIsTranslating true s),
     [fetch (js "/api/translate")
        {| req_text := sourceText r;
           req_sourceLang := sourceLang r;
           req_targetLang := targetLang r |}],
     Some r).

(** [handleTranslate] from its [await] on, [finally] included. *)
Definition handleTranslate_resume (r : State) (o : FetchOutcome) (clock : Clock) (s : State)
  : State * list Effect :=
  match o with
  | NotOk error =>
    let m := Maybe.or_else error (js "Erro ao traduzir") in
    (setIsTranslating false (setApiError (Some m) s), [toast_error m])
  | Ok translation =>
    let s1 := setTranslatedText translation s in
    let s2 := setHistory (newTranslation r translation clock :: take 9 (history r)) s1 in
    (setIsTranslating false s2, [toast_success (js "Tradução concluída!")])
  | Rejected =>
    let errorMsg := js "Erro ao conectar com o servidor. Tente novamente." in
    (setIsTranslating false (setApiError (Some errorMsg) s),
     [toast_error errorMsg; console_error])
  end.

(** One whole invocation on the current render, nothing else happening
    while the request is in flight. *)
Definition handleTranslate (s : State) (o : FetchOutcome) (clock : Clock)
  : State * list Effect :=
  match handleTranslate_begin s s with
  | (s1, effects1, None) => (s1, effects1)
  | (s1, effects1, Some r) =>
    let '(s2, effects2) := handleTranslate_resume r o clock s1 in
    (s2, effects1 ++ effects2)
  end.

Definition swapLanguages (r : State) (s : State) : State * list Effect :=
  (setTranslatedText (sourceText r)
     (setSourceText (translatedText r)
        (setTargetLang (sourceLang r)
           (setSourceLang (targetLang r) s))),
   []).

Definition copyToClipboard (r : State) (s : State) : State * list Effect :=
  (setCopied true s,
   [clipboard_writeText (translatedText r);
    toast_success (js "Texto copiado!");
    setTimeout 2000]).

(** [speakText], where the browser has [speechSynthesis]. *)
Definition speakText (text lang : jsstring) (s : State) : State * list Effect :=
  (s, [speechSynthesis_speak text lang]).

Definition loadFromHistory (item : Translation) (s : State) : State * list Effect :=
  (setShowHistory false
     (setTranslatedText (translated item)
        (setSourceText (original item)
           (setTargetLang (to item)
              (setSourceLang (from item) s)))),
   [toast_success (js "Tradução carregada do histórico")]).

(** *** The running application

    The state of the current render, and the renders whose
    [handleTranslate] is waiting for its response. *)
Record Config := { ui : State; inflight : list State }.

Definition start : Config := {| ui := initial; inflight := [] |}.

(** [disabled={isTranslating || !sourceText.trim()}] *)
Definition translate_disabled (s : State) : bool :=
  isTranslating s || negb (JsString.truthy (JsString.trim (sourceText s))).

(** What can happen next: the user acts on an element the current render
    shows, a timer fires, or a request in flight settles. *)
Inductive Event :=
| type_source (v : jsstring)
| select_source (i : nat)
| select_target (i : nat)
| click_swap
| click_history
| click_item (i : nat)
| click_copy
| copied_timeout
| click_speak_source
| click_speak_translated
| click_translate
| settle (i : nat) (o : FetchOutcome) (clock : Clock).

Definition update (c : Config) (r : State * list Effect) : option (Config * list Effect) :=
  Some ({| ui := r.1; inflight := inflight c |}, r.2).

(** The handler the event runs, on the current render; [None] when the
    render does not offer the element. *)
Definition fire (e : Event) (c : Config) : option (Config * list Effect) :=
  let s := ui c in
  match e with
  | type_source v => update c (setSourceText v s, [])
  | select_source i => l ← languages !! i; update c (setSourceLang (code l) s, [])
  | select_target i => l ← languages !! i; update c (setTargetLang (code l) s, [])
  | click_swap => update c (swapLanguages s s)
  | click_history => update c (setShowHistory (negb (showHistory s)) s, [])
  | click_item i =>
    if showHistory s then item ← history s !! i; update c (loadFromHistory item s)
    else None
  | click_copy =>
    if JsString.truthy (translatedText s) then update c (copyToClipboard s s) else None
  | copied_timeout => update c (setCopied false s, [])
  | click_speak_source =>
    if JsString.truthy (sourceText s) then update c (speakText (sourceText s) (sourceLang s) s)
    else None
  | click_speak_translated =>
    if JsString.truthy (translatedText s)
    then update c (speakText (translatedText s) (targetLang s) s)
    else None
  | click_translate =>
    if translate_disabled s then None
    else
      let '(s1, effects, pending) := handleTranslate_begin s s in
      Some ({| ui := s1; inflight := inflight c ++ option_list pending |}, effects)
  | settle i o clock =>
    r ← inflight c !! i;
    let '(s1, effects) := handleTranslate_resume r o clock s in
    Some ({| ui := s1; inflight := delete i (inflight c) |}, effects)
  end.

Definition step (c c' : Config) : Prop :=
  exists e effects, fire e c = Some (c', effects).

(** The configuration after a sequence of events, when each can fire. *)
Fixpoint run (events : list Event) (c : Config) : option Config :=
  match events with
  | [] => Some c
  | e :: events' => r ← fire e c; run events' r.1
  end.

Definition reachable (c : Config) : Prop := rtc step start c.

(** What every step keeps: the history is bounded, at most one request is
    in flight, the flag is up while it is, and the render that waits has
    the history of the current state. *)
Record invariant (c : Config) : Prop := {
  inv_bounded : (length (history (ui c)) <= 10)%nat;
  inv_single : (length (inflight c) <= 1)%nat;
  inv_flag : inflight c <> [] -> isTranslating (ui c) = true;
  inv_history : forall r, r ∈ inflight c -> history r = history (ui c);
}.

End Client.

(** ** A scenario to run the handlers on

    The request [{ text: "Hello", sourceLang: "en", targetLang: "pt" }], a
    configured key, providers that answer or fail, and the members of
    [Object.prototype] as Node.js prints them. *)

Module Scenario.

Import Proxy.

Definition node_functions : list jsstring :=
  [ js "hasOwnProperty"; js "isPrototypeOf"; js "propertyIsEnumerable";
    js "toLocaleString"; js "toString"; js "valueOf";
    js "__defineGetter__"; js "__defineSetter__";
    js "__lookupGetter__"; js "__lookupSetter__" ].

Definition node_object_prototype (key : jsstring) : option jsstring :=
  if JsString.eqb key (js "constructor") then
    Some (js "function Object() { [native code] }")
  else if existsb (JsString.eqb key) node_functions then
    Some (js "function " ++ key ++ js "() { [native code] }")
  else if JsString.eqb key (js "__proto__") then Some (js "[object Object]")
  else None.

Definition hello : Body :=
  {| text := Some (js "Hello"); sourceLang := Some (js "en"); targetLang := Some (js "pt") |}.

Definition configured : Env := {| OPENAI_API_KEY := Some (js "sk-test") |}.

Definition not_configured : Env := {| OPENAI_API_KEY := None |}.

Definition answers (content : jsstring) : Provider :=
  fun _ =>
    Returns {| choices := [ {| choice_message := Some {| msg_content := Some content |} |} ] |}.

Definition fails (e : JsError) : Provider := fun _ => Throws e.

Definition rate_limit_error : JsError :=
  {| status := Some 429; message := Some (js "Rate limit reached for gpt-4o") |}.

Definition typed (v : jsstring) : Client.State := Client.setSourceText v Client.initial.

Definition reading (n : N) : Client.Clock := {| Client.Date_now := n; Client.new_Date := n |}.

(** Type a text, press the button, and the request settles with a
    translation at clock reading [n]. *)
Definition translation_round (v translation : jsstring) (n : N) : list Client.Event :=
  [ Client.type_source v; Client.click_translate;
    Client.settle 0 (Client.Ok translation) (reading n) ].

End Scenario.

(** ** What the page shows: the conditions in the JSX of [page.tsx] *)

Module View.

Import Client.

(** [{apiError && (<Alert ...>)}] *)
Definition alert_shown (s : State) : bool := Maybe.truthy (apiError s).

(** [{apiError.includes("OpenAI") && (...)}], inside the alert. *)
Definition key_help_shown (s : State) : bool :=
  match apiError s with
  | Some m => JsString.truthy m && JsString.includes m (js "OpenAI")
  | None => false
  end.

(** [languages.find((l) => l.code === c)?.name], in the history list. *)
Definition language_name (c : jsstring) : option jsstring :=
  name <$> List.find (fun l => JsString.eqb (code l) c) languages.

End View.

(** ** A session of the page *)

Module Session.

Import Client.

(** The bodies of the requests among the effects. *)
Definition requests (effects : list Effect) : list TranslateRequest :=
  omap (fun eff => match eff with fetch _ body => Some body | _ => None end) effects.

(** A code the [Select]s offer. *)
Definition known_code (c : jsstring) : Prop := c ∈ code <$> languages.

Record known_languages (s : State) : Prop := {
  known_source : known_code (sourceLang s);
  known_target : known_code (targetLang s);
  known_history :
    Forall (fun item => known_code (from item) /\ known_code (to item)) (history s);
}.

(** What every step keeps, besides [invariant]: the flag is up exactly
    while a request is in flight, no error is set while it is, and the
    codes in the state, in its history and in the waiting renders are
    codes of [languages]. *)
Record consistent (c : Config) : Prop := {
  flag_in_flight : isTranslating (ui c) = true <-> inflight c <> [];
  error_in_flight : inflight c <> [] -> apiError (ui c) = None;
  known_ui : known_languages (ui c);
  known_inflight : Forall known_languages (inflight c);
}.

End Session.

(** ** The page and the proxy, connected *)

Module Wire.

(** The body of the request, [JSON.stringify({ text: sourceText,
    sourceLang, targetLang })], as [request.json()] gives it to [POST]. *)
Definition request_of (b : Client.TranslateRequest) : Proxy.NextRequest :=
  {| Proxy.json :=
       Proxy.Returns {| Proxy.text := Some (Client.req_text b);
                        Proxy.sourceLang := Some (Client.req_sourceLang b);
                        Proxy.targetLang := Some (Client.req_targetLang b) |} |}.

(** [response.ok]: the status is in the range 200 to 299. *)
Definition ok (r : Proxy.NextResponse) : bool :=
  (200 <=? Proxy.resp_status r) && (Proxy.resp_status r <=? 299).

(** What [handleTranslate] reads off the answer: [response.ok], and
    [data.error] or [data.translation] of the parsed body. [None] where it
    would read a [data.translation] that is not there. *)
Definition outcome_of (r : Proxy.NextResponse) : option Client.FetchOutcome :=
  match Proxy.resp_body r with
  | Proxy.ErrorBody m => if ok r then None else Some (Client.NotOk (Some m))
  | Proxy.TranslationBody t =>
    if ok r then Some (Client.Ok t) else Some (Client.NotOk None)
  end.

(** One press of the button, the request answered by [POST]: the state and
    the effects of the page, and the effects of the proxy. *)
Definition translate (object_prototype : jsstring -> option jsstring)
    (env : Proxy.Env) (openai : Proxy.Provider)
    (s : Client.State) (clock : Client.Clock)
  : option (Client.State * list Client.Effect * list Proxy.Effect) :=
  let '(s1, effects1, pending) := Client.handleTranslate_begin s s in
  match pending, Session.requests effects1 with
  | None, [] => Some (s1, effects1, [])
  | Some r, [b] =>
    let answer := Proxy.POST object_prototype (request_of b) env openai in
    response ← answer.1;
    o ← outcome_of response;
    let '(s2, effects2) := Client.handleTranslate_resume r o clock s1 in
    Some (s2, effects1 ++ effects2, answer.2)
  | _, _ => None
  end.

End Wire.

(** * Properties *)

(** ** JavaScript strings *)

Example lit_ascii : js "en" = [101; 110].
Proof. reflexivity. Qed.

Example lit_accent : js "Alemão" = [65; 108; 101; 109; 227; 111].
Proof. reflexivity. Qed.

Example trim_example : JsString.trim (js "  Olá
 ") = js "Olá".
Proof. reflexivity. Qed.

Example includes_example :
  JsString.includes (js "401 Incorrect API key provided") (js "Incorrect API key") = true.
Proof. reflexivity. Qed.

Example toString_example : JsString.of_nat_number 1730000000000 = js "1730000000000".
Proof. reflexivity. Qed.

Section JsStringFacts.

Import JsString.

Lemma eqb_eq (a b : jsstring) : eqb a b = true <-> a = b.
Proof.
  revert b. induction a as [|x a IH]; intros [|y b]; simpl; try (split; congruence).
  rewrite andb_true_iff, N.eqb_eq, IH. split.
  - intros [-> ->]. reflexivity.
  - intros [= -> ->]. split; reflexivity.
Qed.

Lemma truthy_false (s : jsstring) : truthy s = false <-> s = empty.
Proof. unfold empty. destruct s; simpl; split; congruence. Qed.


Lemma trimStart_head (s : jsstring) (c : code_unit) :
  head (trimStart s) = Some c -> is_white c = false.
Proof.
  induction s as [|x s IH]; simpl; [discriminate|].
  destruct (is_white x) eqn:Hx; [exact IH|].
  simpl. intros [= <-]. exact Hx.
Qed.




Lemma bytes_of_inj (a b : string) : bytes_of a = bytes_of b -> a = b.
Proof.
  unfold bytes_of. intros H.
  rewrite <- (string_of_list_ascii_of_string a), <- (string_of_list_ascii_of_string b).
  f_equal. revert H.
  generalize (list_ascii_of_string a) (list_ascii_of_string b).
  intros la. induction la as [|x la IH]; intros [|y lb]; simpl; try congruence.
  intros [= Hxy Hl]. f_equal; [|apply IH; exact Hl].
  rewrite <- (ascii_N_embedding x), <- (ascii_N_embedding y). congruence.
Qed.

(** The decimal digits of a number determine it. *)
Lemma of_nat_number_inj (m n : N) : of_nat_number m = of_nat_number n -> m = n.
Proof.
  unfold of_nat_number. intros H. apply bytes_of_inj in H.
  assert (Hu : Some (N.to_uint m) = Some (N.to_uint n)).
  { rewrite <- !NilEmpty.usu. congruence. }
  injection Hu as Hu.
  rewrite <- (DecimalN.Unsigned.of_to m), <- (DecimalN.Unsigned.of_to n).
  congruence.
Qed.

End JsStringFacts.

(** ** The proxy *)

Section ProxyFacts.

Import Maybe Proxy.

Context (object_prototype : jsstring -> option jsstring).

Local Abbreviation POST := (Proxy.POST object_prototype).
Local Abbreviation try_block := (Proxy.try_block object_prototype).
Local Abbreviation prompt := (Proxy.prompt object_prototype).
Local Abbreviation get := (Proxy.get object_prototype).

(** The one provider call of a request that passes both checks. *)
Local Abbreviation the_call body env :=
  (completion_call object_prototype (OPENAI_API_KEY env)
     (text body) (sourceLang body) (targetLang body)).

(** A field, or the credential, is missing ([undefined]) or empty. *)
Local Abbreviation missing_or_empty v := (v = None \/ v = Some JsString.empty).

Lemma truthy_false_iff (v : option jsstring) :
  truthy v = false <-> missing_or_empty v.
Proof.
  destruct v as [s|]; simpl.
  - rewrite truthy_false. split; [intros ->; right; reflexivity|].
    intros [H|H]; congruence.
  - split; [left; reflexivity | reflexivity].
Qed.

Ltac run_handler :=
  unfold Proxy.POST, POST_handler, try_catch, Proxy.try_block, catch_clause,
    bind, await, ret, create, NextResponse_json; simpl.

(** The validation of the body, as one test. *)
Lemma validation_fails_iff (body : Body) :
  negb (truthy (text body)) || negb (truthy (sourceLang body)) ||
    negb (truthy (targetLang body)) = true <->
  missing_or_empty (text body) \/ missing_or_empty (sourceLang body) \/
    missing_or_empty (targetLang body).
Proof.
  rewrite !orb_true_iff, !negb_true_iff, !truthy_false_iff. tauto.
Qed.

(** When the [try] block throws: line 6 threw, or the provider call did. *)
Lemma try_block_throws (request : NextRequest) (env : Env) (openai : Provider)
      (e : JsError) (log : list Effect) :
  try_block request env openai [] = (Throws e, log) <->
  (json request = Throws e /\ log = []) \/
  (exists body,
      json request = Returns body /\
      truthy (text body) = true /\ truthy (sourceLang body) = true /\
      truthy (targetLang body) = true /\
      truthy (OPENAI_API_KEY env) = true /\
      openai (the_call body env) = Throws e /\
      log = [completions_create (the_call body env)]).
Proof.
  unfold Proxy.try_block, bind, await, ret, create.
  destruct (json request) as [body|e'] eqn:Hjson.
  - destruct (truthy (text body)) eqn:Ht; simpl;
      [destruct (truthy (sourceLang body)) eqn:Hs; simpl;
       [destruct (truthy (targetLang body)) eqn:Hg; simpl;
        [destruct (truthy (OPENAI_API_KEY env)) eqn:Hk; simpl|]|]|].
    + destruct (openai _) as [completion|e''] eqn:Hcall.
      * split; [discriminate|].
        intros [[? _]|(b & [= <-] & _ & _ & _ & _ & H & _)]; congruence.
      * split.
        -- intros [= <- <-]. right. exists body. repeat split; assumption.
        -- intros [[? _]|(b & [= <-] & _ & _ & _ & _ & H & ->)]; congruence.
    + split; [discriminate|].
      intros [[? _]|(b & [= <-] & _ & _ & _ & ? & _)]; congruence.
    + split; [discriminate|].
      intros [[? _]|(b & [= <-] & _ & _ & ? & _)]; congruence.
    + split; [discriminate|].
      intros [[? _]|(b & [= <-] & _ & ? & _)]; congruence.
    + split; [discriminate|].
      intros [[? _]|(b & [= <-] & ? & _)]; congruence.
  - split.
    + intros [= <- <-]. left. split; reflexivity.
    + intros [[[= ->] ->]|(b & ? & _)]; [reflexivity | congruence].
Qed.

(** The handler answers every request: nothing escapes the [catch]. *)
Lemma POST_handler_returns (request : NextRequest) (env : Env) (openai : Provider) :
  exists r, (POST request env openai).1 = Some r.
Proof.
  unfold Proxy.POST, POST_handler, try_catch.
  destruct (Proxy.try_block _ _ _ _ _) as [[r|e] log].
  - exists r. reflexivity.
  - unfold catch_clause, bind, log_error, ret.
    repeat match goal with |- context [if ?b then _ else _] => destruct b end;
      eexists; reflexivity.
Qed.

(** The three answers of the [catch] clause. *)
Local Abbreviation unauthorized :=
  {| resp_status := 401;
     resp_body := ErrorBody (js "Chave da OpenAI inválida. Verifique sua configuração.") |}.
Local Abbreviation rate_limited :=
  {| resp_status := 429;
     resp_body := ErrorBody (js "Limite de uso da API atingido. Tente novamente mais tarde.") |}.
Local Abbreviation upstream :=
  {| resp_status := 500;
     resp_body := ErrorBody (js "Erro ao processar tradução. Tente novamente.") |}.

(** The [catch] clause recognises a bad credential by the status 401 or by
    the words [Incorrect API key] in the message. *)
Local Abbreviation bad_credential e :=
  (status e = Some 401 \/
   exists m, message e = Some m /\
             JsString.includes m (js "Incorrect API key") = true).

Lemma bad_credential_test (e : JsError) :
  bool_decide (status e = Some 401) ||
    match message e with
    | Some m => JsString.includes m (js "Incorrect API key")
    | None => false
    end = true <-> bad_credential e.
Proof.
  rewrite orb_true_iff, bool_decide_eq_true.
  destruct (message e) as [m|]; split.
  - intros [H|H]; [left; exact H | right; exists m; split; [reflexivity | exact H]].
  - intros [H|(m' & [= <-] & H)]; [left; exact H | right; exact H].
  - intros [H|H]; [left; exact H | discriminate].
  - intros [H|(m' & [=] & _)]. left; exact H.
Qed.

Lemma classic_bad (e : JsError) : bad_credential e \/ ~ bad_credential e.
Proof.
  pose proof (bad_credential_test e) as Htest.
  destruct (_ || _); [left; apply Htest; reflexivity|].
  right. intros H. apply Htest in H. discriminate.
Qed.

Lemma catch_clause_cases (e : JsError) (log : list Effect) :
  (bad_credential e ->
   catch_clause e log = (Returns unauthorized, log ++ [console_error e])) /\
  (~ bad_credential e -> status e = Some 429 ->
   catch_clause e log = (Returns rate_limited, log ++ [console_error e])) /\
  (~ bad_credential e -> status e <> Some 429 ->
   catch_clause e log = (Returns upstream, log ++ [console_error e])).
Proof.
  unfold catch_clause, bind, log_error, ret, NextResponse_json.
  pose proof (bad_credential_test e) as Htest.
  destruct (_ || _) eqn:Hbad.
  - assert (Hyes : bad_credential e) by (apply Htest; reflexivity).
    split; [reflexivity | split; intros Hno; contradiction].
  - assert (Hno : ~ bad_credential e).
    { intros H. apply Htest in H. discriminate. }
    split; [intros H; contradiction | split; intros _ H429].
    + rewrite bool_decide_eq_true_2 by exact H429. reflexivity.
    + rewrite bool_decide_eq_false_2 by exact H429. reflexivity.
Qed.

(** C1. A body in which [text], [sourceLang] or [targetLang] is missing or
    empty is answered with status 400 and the body
    [{ error: "Parâmetros inválidos" }], and the provider is not called. *)
Theorem POST_missing_field_is_bad_request
    (request : NextRequest) (body : Body) (env : Env) (openai : Provider) :
  json request = Returns body ->
  missing_or_empty (text body) \/ missing_or_empty (sourceLang body) \/
    missing_or_empty (targetLang body) ->
  POST request env openai =
    (Some {| resp_status := 400; resp_body := ErrorBody (js "Parâmetros inválidos") |},
     []).
Proof.
  intros Hjson Hmissing. apply validation_fails_iff in Hmissing.
  run_handler. rewrite Hjson, Hmissing. reflexivity.
Qed.

(** C2. When the provider call fails, or line 6 throws, the failure is
    logged and answered with an [{ error: message }] body: with status 401
    for a bad credential, with status 429 for a rate or quota failure
    (status 429), and with status 500 and the generic message for every
    other failure. *)
Theorem POST_maps_failures
    (request : NextRequest) (env : Env) (openai : Provider)
    (e : JsError) (log : list Effect) :
  (json request = Throws e /\ log = []) \/
  (exists body,
      json request = Returns body /\
      truthy (text body) = true /\ truthy (sourceLang body) = true /\
      truthy (targetLang body) = true /\
      truthy (OPENAI_API_KEY env) = true /\
      openai (the_call body env) = Throws e /\
      log = [completions_create (the_call body env)]) ->
  (bad_credential e ->
   POST request env openai = (Some unauthorized, log ++ [console_error e])) /\
  (~ bad_credential e -> status e = Some 429 ->
   POST request env openai = (Some rate_limited, log ++ [console_error e])) /\
  (~ bad_credential e -> status e <> Some 429 ->
   POST request env openai = (Some upstream, log ++ [console_error e])).
Proof.
  intros Htry. apply try_block_throws in Htry.
  destruct (catch_clause_cases e log) as (Hauth & Hrate & Hother).
  unfold Proxy.POST, POST_handler, try_catch. rewrite Htry.
  split; [|split]; intros.
  - rewrite Hauth by assumption. reflexivity.
  - rewrite Hrate by assumption. reflexivity.
  - rewrite Hother by assumption. reflexivity.
Qed.


(** A request that passes both checks runs up to the provider call. *)
Lemma try_block_calls_provider
    (request : NextRequest) (body : Body) (env : Env) (openai : Provider) :
  json request = Returns body ->
  truthy (text body) = true -> truthy (sourceLang body) = true ->
  truthy (targetLang body) = true ->
  truthy (OPENAI_API_KEY env) = true ->
  try_block request env openai [] =
    match openai (the_call body env) with
    | Returns completion =>
      (Returns {| resp_status := 200;
                  resp_body := TranslationBody (translation_of completion) |},
       [completions_create (the_call body env)])
    | Throws e => (Throws e, [completions_create (the_call body env)])
    end.
Proof.
  intros Hjson Ht Hs Hg Hk.
  unfold Proxy.try_block, bind, await, ret, create, NextResponse_json.
  rewrite Hjson. simpl. rewrite Ht, Hs, Hg, Hk. simpl.
  destruct (openai _); reflexivity.
Qed.


(** C6. A request that passes the validation, when [OPENAI_API_KEY] is
    missing or empty, is answered with status 500 and the body
    [{ error }] that says the key is not configured, and the provider is
    not called. *)
Theorem POST_missing_credential_is_misconfigured
    (request : NextRequest) (body : Body) (env : Env) (openai : Provider) :
  json request = Returns body ->
  truthy (text body) = true -> truthy (sourceLang body) = true ->
  truthy (targetLang body) = true ->
  missing_or_empty (OPENAI_API_KEY env) ->
  POST request env openai =
    (Some {| resp_status := 500;
             resp_body := ErrorBody (js "Chave da OpenAI não configurada. Configure OPENAI_API_KEY nas variáveis de ambiente.") |},
     []).
Proof.
  intros Hjson Ht Hs Hg Hk. apply truthy_false_iff in Hk.
  run_handler. rewrite Hjson, Ht, Hs, Hg, Hk. reflexivity.
Qed.

(** The codes the table has as own properties. *)
Lemma own_property_None (o : list (jsstring * jsstring)) (key : jsstring) :
  own_property o key = None <-> key ∉ o.*1.
Proof.
  induction o as [|[k v] o IH]; simpl.
  - split; [intros _; apply not_elem_of_nil | reflexivity].
  - rewrite not_elem_of_cons. destruct (JsString.eqb k key) eqn:Hk.
    + apply eqb_eq in Hk. split; [discriminate | intros [H _]; congruence].
    + rewrite IH. split; [|tauto]. intros H. split; [|exact H].
      intros ->. rewrite (proj2 (eqb_eq k k) eq_refl) in Hk. discriminate.
Qed.

(** The name a code has in the prompt: [${languageNames[code]}]. *)
Local Abbreviation name_in_prompt code := (to_string (get languageNames code)).

(** C8. A request with non-empty fields is not turned away for its language
    codes, whether the table has them or not: the provider is called, once,
    with the prompt built from whatever [languageNames[code]] gives, and
    the answer is not the 400 of the validation. Where the lookup gives
    [undefined] (the code is no key of the table, and nothing is inherited
    under it), the name in the prompt is the text [undefined]. *)
Theorem POST_passes_unknown_codes_through
    (request : NextRequest) (body : Body) (env : Env) (openai : Provider) :
  json request = Returns body ->
  truthy (text body) = true -> truthy (sourceLang body) = true ->
  truthy (targetLang body) = true ->
  truthy (OPENAI_API_KEY env) = true ->
  provider_calls (POST request env openai).2 =
    [ {| call_apiKey := OPENAI_API_KEY env;
         call_request :=
           chat_request
             (js "Traduza o seguinte texto de " ++ name_in_prompt (sourceLang body) ++
              js " para " ++ name_in_prompt (targetLang body) ++
              js ". 
Retorne APENAS a tradução, sem explicações ou texto adicional.

Texto: " ++ to_string (text body)) |} ] /\
  (exists r, (POST request env openai).1 = Some r /\ resp_status r <> 400) /\
  (forall code : jsstring,
     code ∉ languageNames.*1 -> object_prototype code = None ->
     name_in_prompt (Some code) = js "undefined").
Proof.
  intros Hjson Ht Hs Hg Hk. split; [|split].
  - unfold Proxy.POST, POST_handler, try_catch.
    rewrite (try_block_calls_provider request body env openai) by assumption.
    destruct (openai _) as [completion|e]; [reflexivity|].
    unfold catch_clause, bind, log_error, ret.
    repeat match goal with |- context [if ?b then _ else _] => destruct b end;
      reflexivity.
  - unfold Proxy.POST, POST_handler, try_catch.
    rewrite (try_block_calls_provider request body env openai) by assumption.
    destruct (openai _) as [completion|e].
    + eexists. split; [reflexivity | discriminate].
    + destruct (catch_clause_cases e [completions_create (the_call body env)])
        as (Hauth & Hrate & Hother).
      destruct (classic_bad e) as [Hbad|Hbad].
      * rewrite Hauth by exact Hbad. eexists. split; [reflexivity | discriminate].
      * destruct (decide (status e = Some 429)) as [H429|H429].
        -- rewrite Hrate by assumption. eexists. split; [reflexivity | discriminate].
        -- rewrite Hother by assumption. eexists. split; [reflexivity | discriminate].
  - intros code Hown Hproto. unfold Proxy.get.
    change (to_string (Some code)) with code.
    apply own_property_None in Hown. rewrite Hown, Hproto. reflexivity.
Qed.

End ProxyFacts.

(** ** The client *)

Section ClientFacts.

Import Client.

Local Open Scope nat_scope.

Lemma invariant_start : invariant start.
Proof.
  split; simpl; [lia | lia | congruence |].
  intros r Hr. apply elem_of_nil in Hr. contradiction.
Qed.

(** A step that leaves [history], [isTranslating] and the requests in
    flight alone keeps the invariant. *)
Lemma invariant_frame (c : Config) (s : State) :
  invariant c ->
  history s = history (ui c) -> isTranslating s = isTranslating (ui c) ->
  invariant {| ui := s; inflight := inflight c |}.
Proof.
  intros [Hb Hs Hf Hh] Hhist Hflag. split; simpl.
  - rewrite Hhist. exact Hb.
  - exact Hs.
  - rewrite Hflag. exact Hf.
  - intros r Hr. rewrite Hhist. apply Hh. exact Hr.
Qed.

Lemma resume_history (r s : State) (o : FetchOutcome) (clock : Clock) :
  history (handleTranslate_resume r o clock s).1 =
    match o with
    | Ok translation => newTranslation r translation clock :: take 9 (history r)
    | _ => history s
    end.
Proof. destruct o; reflexivity. Qed.

Lemma length_insert_front (x : Translation) (h : list Translation) :
  length (x :: take 9 h) <= 10.
Proof. simpl. rewrite length_take. lia. Qed.

(** Case analysis on the guards of a fired event. *)
Ltac fired H :=
  unfold fire, update in H;
  repeat match type of H with
         | (if ?b then _ else _) = Some _ => destruct b eqn:?
         | (?o ≫= _) = Some _ => destruct o eqn:?; simpl in H
         | None = Some _ => discriminate H
         end.

Lemma invariant_fire (e : Event) (c c' : Config) (effects : list Effect) :
  invariant c -> fire e c = Some (c', effects) -> invariant c'.
Proof.
  intros Hinv Hfire.
  destruct e as [v|i|i| | |i| | | | | |i o clock]; fired Hfire;
    try (injection Hfire as <- <-;
         apply invariant_frame; [exact Hinv | reflexivity | reflexivity]).
  - (* click_translate *)
    destruct Hinv as [Hb Hs Hf Hh].
    match goal with H : translate_disabled _ = false |- _ => rename H into Henabled end.
    unfold translate_disabled in Henabled.
    apply orb_false_iff in Henabled as [Hflag Htext].
    assert (Hnone : inflight c = []).
    { destruct (inflight c) eqn:Hi; [reflexivity|].
      rewrite Hf in Hflag; [discriminate | congruence]. }
    unfold handleTranslate_begin in Hfire. rewrite Htext, Hnone in Hfire.
    injection Hfire as <- <-.
    split; simpl.
    + exact Hb.
    + lia.
    + reflexivity.
    + intros r Hr. apply list_elem_of_singleton in Hr. subst r. reflexivity.
  - (* settle *)
    destruct Hinv as [Hb Hs Hf Hh].
    match goal with H : inflight c !! i = Some ?x |- _ =>
      rename H into Hlookup; rename x into r end.
    assert (Hr : history r = history (ui c)).
    { apply Hh. eapply list_elem_of_lookup_2. exact Hlookup. }
    assert (Hone : inflight c = [r] /\ i = 0).
    { destruct (inflight c) as [|r0 [|r1 rest]]; simpl in Hs; try lia.
      - discriminate.
      - destruct i; simpl in Hlookup; [split; congruence | discriminate]. }
    destruct Hone as [Hone ->].
    destruct (handleTranslate_resume r o clock (ui c)) as [s1 effects1] eqn:Hres.
    injection Hfire as <- <-. rewrite Hone.
    assert (Hs1 : s1 = (handleTranslate_resume r o clock (ui c)).1) by (rewrite Hres; reflexivity).
    split; simpl.
    + rewrite Hs1, resume_history. destruct o; try exact Hb. apply length_insert_front.
    + lia.
    + congruence.
    + intros r' Hr'. apply elem_of_nil in Hr'. contradiction.
Qed.

Lemma invariant_step (c c' : Config) : invariant c -> step c c' -> invariant c'.
Proof. intros Hinv (e & effects & Hfire). exact (invariant_fire e c c' effects Hinv Hfire). Qed.

Lemma reachable_invariant (c : Config) : reachable c -> invariant c.
Proof.
  unfold reachable. intros Hreach.
  revert c Hreach. apply rtc_ind_r.
  - exact invariant_start.
  - intros c1 c2 _ Hstep IH. exact (invariant_step c1 c2 IH Hstep).
Qed.

Lemma reachable_fire (e : Event) (c c' : Config) (effects : list Effect) :
  reachable c -> fire e c = Some (c', effects) -> reachable c'.
Proof.
  intros Hreach Hfire. apply (rtc_r _ c); [exact Hreach|].
  exists e, effects. exact Hfire.
Qed.

Lemma run_reachable (events : list Event) (c c' : Config) :
  reachable c -> run events c = Some c' -> reachable c'.
Proof.
  revert c. induction events as [|e events IH]; simpl; intros c Hreach Hrun.
  - injection Hrun as <-. exact Hreach.
  - destruct (fire e c) as [[c1 effects]|] eqn:Hfire; [|discriminate].
    simpl in Hrun. apply (IH c1); [|exact Hrun].
    exact (reachable_fire e c c1 effects Hreach Hfire).
Qed.

(** The new history, position by position: the new record, then the first
    nine of the old ones; the old tenth, index 9, is gone. *)
Lemma lookup_insert_front (x : Translation) (h : list Translation) (k : nat) :
  (x :: take 9 h) !! S k = if decide (k < 9) then h !! k else None.
Proof.
  simpl. destruct (decide (k < 9)).
  - apply lookup_take_lt. assumption.
  - apply lookup_take_ge. lia.
Qed.

(** A whole successful invocation, on any state with something to
    translate. *)
Lemma handleTranslate_success (s : State) (translation : jsstring) (clock : Clock) :
  JsString.trim (sourceText s) <> JsString.empty ->
  handleTranslate s (Ok translation) clock =
    (setIsTranslating false
       (setHistory (newTranslation s translation clock :: take 9 (history s))
          (setTranslatedText translation (setApiError None s))),
     [fetch (js "/api/translate")
        {| req_text := sourceText s; req_sourceLang := sourceLang s;
           req_targetLang := targetLang s |};
      toast_success (js "Tradução concluída!")]).
Proof.
  intros Htext. unfold handleTranslate, handleTranslate_begin.
  destruct (JsString.trim (sourceText s)) eqn:Htrim; [contradiction|].
  reflexivity.
Qed.

(** C3. In every reachable state the history has at most 10 records. When
    the request in flight settles with a translation, the new record goes
    to the front of the history and the history is cut after index 9: the
    records that were at indices 0 to 8 move to 1 to 9, and the one that
    was at index 9 is dropped. *)
Theorem history_keeps_ten_most_recent (c : Config) :
  reachable c ->
  length (history (ui c)) <= 10 /\
  forall i r translation clock,
    inflight c !! i = Some r ->
    exists c' effects,
      fire (settle i (Ok translation) clock) c = Some (c', effects) /\
      history (ui c') =
        newTranslation r translation clock :: take 9 (history (ui c)) /\
      length (history (ui c')) <= 10 /\
      (forall k, history (ui c') !! S k =
                 if decide (k < 9) then history (ui c) !! k else None).
Proof.
  intros Hreach. destruct (reachable_invariant c Hreach) as [Hb Hs Hf Hh].
  split; [exact Hb|].
  intros i r translation clock Hlookup.
  assert (Hr : history r = history (ui c)).
  { apply Hh. eapply list_elem_of_lookup_2. exact Hlookup. }
  eexists. eexists. split.
  - unfold fire. rewrite Hlookup. reflexivity.
  - simpl. rewrite Hr. split; [reflexivity | split].
    + rewrite length_take. lia.
    + intros k. exact (lookup_insert_front (newTranslation r translation clock) _ k).
Qed.

(** C4. [swapLanguages] exchanges the two languages and the two texts and
    does nothing else; applied twice it gives the state back. *)
Theorem swapLanguages_involution (s : State) :
  (swapLanguages s s).2 = [] /\
  sourceLang (swapLanguages s s).1 = targetLang s /\
  targetLang (swapLanguages s s).1 = sourceLang s /\
  sourceText (swapLanguages s s).1 = translatedText s /\
  translatedText (swapLanguages s s).1 = sourceText s /\
  (swapLanguages (swapLanguages s s).1 (swapLanguages s s).1).1 = s.
Proof. destruct s. repeat split. Qed.

(** C7. When the source text is empty once trimmed, [handleTranslate]
    shows the message [Digite um texto para traduzir], sends no request
    and leaves every cell of the state as it is. *)
Theorem handleTranslate_blank_source (s : State) (o : FetchOutcome) (clock : Clock) :
  JsString.trim (sourceText s) = JsString.empty ->
  handleTranslate s o clock = (s, [toast_error (js "Digite um texto para traduzir")]) /\
  handleTranslate_begin s s =
    (s, [toast_error (js "Digite um texto para traduzir")], None) /\
  (forall url body, fetch url body ∉ (handleTranslate s o clock).2).
Proof.
  intros Htrim.
  assert (Hbegin : handleTranslate_begin s s =
                   (s, [toast_error (js "Digite um texto para traduzir")], None)).
  { unfold handleTranslate_begin. rewrite Htrim. reflexivity. }
  assert (Hall : handleTranslate s o clock =
                 (s, [toast_error (js "Digite um texto para traduzir")])).
  { unfold handleTranslate. rewrite Hbegin. reflexivity. }
  split; [exact Hall | split; [exact Hbegin|]].
  intros url body. rewrite Hall. simpl.
  intros Hin. apply list_elem_of_singleton in Hin. discriminate.
Qed.

(** The five cells a failed invocation leaves alone. *)
Local Abbreviation same_texts_languages_history s' s :=
  (sourceText s' = sourceText s /\ translatedText s' = translatedText s /\
   sourceLang s' = sourceLang s /\ targetLang s' = targetLang s /\
   history s' = history s).

(** C10. An invocation that fails (the response is not ok, or something in
    the [try] throws) leaves [sourceText], [translatedText], [sourceLang],
    [targetLang] and [history] as they were, as a whole and from the
    [await] on; when a request was sent, the state afterwards is the state
    before with [apiError] set to a message and [isTranslating] false. *)
Theorem handleTranslate_failure_frame (s : State) (o : FetchOutcome) (clock : Clock) :
  (forall translation, o <> Ok translation) ->
  same_texts_languages_history (handleTranslate s o clock).1 s /\
  (forall r s0, same_texts_languages_history (handleTranslate_resume r o clock s0).1 s0) /\
  (JsString.trim (sourceText s) <> JsString.empty ->
   exists m, (handleTranslate s o clock).1 =
             setIsTranslating false (setApiError (Some m) s)).
Proof.
  intros Hfail. split; [|split].
  - unfold handleTranslate, handleTranslate_begin.
    destruct (JsString.truthy _); simpl; [|repeat split].
    destruct o as [|error|translation]; simpl; [repeat split ..|].
    exfalso. exact (Hfail translation eq_refl).
  - intros r s0. destruct o as [|error|translation]; simpl; [repeat split ..|].
    exfalso. exact (Hfail translation eq_refl).
  - intros Htext. unfold handleTranslate, handleTranslate_begin.
    destruct (JsString.trim (sourceText s)) eqn:Htrim; [contradiction|]. simpl.
    destruct o as [|error|translation]; simpl.
    + eexists. destruct s; reflexivity.
    + eexists. destruct s; reflexivity.
    + exfalso. exact (Hfail translation eq_refl).
Qed.

(** C9, as the code has it. The history changes only when a request in
    flight settles with a translation, and then by the one new record;
    the [id] of a record is the decimal text of [Date.now()] at that
    moment, so two records have different ids exactly when they were made
    at different readings of the clock. *)
Theorem record_id_is_clock_reading :
  (forall e c c' effects,
     fire e c = Some (c', effects) ->
     history (ui c') = history (ui c) \/
     exists i r translation clock,
       e = settle i (Ok translation) clock /\ inflight c !! i = Some r /\
       history (ui c') = newTranslation r translation clock :: take 9 (history r)) /\
  (forall r translation clock,
     id (newTranslation r translation clock) = JsString.of_nat_number (Date_now clock)) /\
  (forall r translation clock r' translation' clock',
     id (newTranslation r translation clock) = id (newTranslation r' translation' clock') <->
     Date_now clock = Date_now clock').
Proof.
  split; [|split].
  - intros e c c' effects Hfire.
    destruct e as [v|i|i| | |i| | | | | |i o clock]; fired Hfire;
      try (injection Hfire as <- <-; left; reflexivity).
    + left. unfold handleTranslate_begin in Hfire.
      destruct (negb _); injection Hfire as <- <-; reflexivity.
    + match goal with H : inflight c !! i = Some ?x |- _ =>
        rename H into Hlookup; rename x into r end.
      destruct o as [|error|translation]; simpl in Hfire; injection Hfire as <- <-.
      * left. reflexivity.
      * left. reflexivity.
      * right. exists i, r, translation, clock. repeat split. exact Hlookup.
  - reflexivity.
  - intros r t clock r' t' clock'. simpl. split.
    + apply of_nat_number_inj.
    + intros ->. reflexivity.
Qed.

End ClientFacts.

(** ** The scenario, run *)

Section Runs.

Import Maybe Proxy Scenario.

Local Abbreviation POST := (Proxy.POST node_object_prototype).

Example POST_hello :
  POST {| json := Returns hello |} configured (answers (js "  Olá
")) =
    (Some {| resp_status := 200; resp_body := TranslationBody (js "Olá") |},
     [ completions_create
         {| call_apiKey := Some (js "sk-test");
            call_request :=
              chat_request (js "Traduza o seguinte texto de Inglês para Português. 
Retorne APENAS a tradução, sem explicações ou texto adicional.

Texto: Hello") |} ]).
Proof. vm_compute. reflexivity. Qed.

Example POST_invalid_json :
  POST {| json := Throws {| status := None; message := Some (js "Unexpected end of JSON input") |} |}
       configured (answers (js "Olá")) =
    (Some {| resp_status := 500;
             resp_body := ErrorBody (js "Erro ao processar tradução. Tente novamente.") |},
     [ console_error {| status := None; message := Some (js "Unexpected end of JSON input") |} ]).
Proof. vm_compute. reflexivity. Qed.

Example POST_inherited_name :
  exists call,
    provider_calls
      (POST {| json := Returns {| text := Some (js "Hello");
                                  sourceLang := Some (js "toString");
                                  targetLang := Some (js "pt") |} |}
            configured (answers (js "Olá"))).2 = [call] /\
    content <$> messages (call_request call) !! 1%nat =
      Some (js "Traduza o seguinte texto de function toString() { [native code] } para Português. 
Retorne APENAS a tradução, sem explicações ou texto adicional.

Texto: Hello").
Proof. eexists. split; vm_compute; reflexivity. Qed.

(** C1 at a body without [sourceLang]. *)
Lemma POST_missing_field_run :
  POST {| json := Returns {| text := Some (js "Hello"); sourceLang := None;
                             targetLang := Some (js "pt") |} |}
       configured (answers (js "Olá")) =
    (Some {| resp_status := 400; resp_body := ErrorBody (js "Parâmetros inválidos") |},
     []).
Proof.
  apply (POST_missing_field_is_bad_request node_object_prototype _
           {| text := Some (js "Hello"); sourceLang := None; targetLang := Some (js "pt") |}).
  - reflexivity.
  - right. left. left. reflexivity.
Defined.

(** C2 at a provider that answers 429. *)
Lemma POST_rate_limit_run :
  POST {| json := Returns hello |} configured (fails rate_limit_error) =
    (Some {| resp_status := 429;
             resp_body := ErrorBody (js "Limite de uso da API atingido. Tente novamente mais tarde.") |},
     [completions_create
        (completion_call node_object_prototype (Some (js "sk-test"))
           (Some (js "Hello")) (Some (js "en")) (Some (js "pt")));
      console_error rate_limit_error]).
Proof.
  refine (proj1 (proj2 (POST_maps_failures node_object_prototype
                          {| json := Returns hello |} configured (fails rate_limit_error)
                          rate_limit_error
                          [completions_create
                             (completion_call node_object_prototype (Some (js "sk-test"))
                                (Some (js "Hello")) (Some (js "en")) (Some (js "pt")))]
                          _)) _ _).
  - right. exists hello. repeat split; reflexivity.
  - intros Hbad. apply bad_credential_test in Hbad. vm_compute in Hbad. discriminate.
  - reflexivity.
Defined.


(** C6 at the scenario, without the key. *)
Lemma POST_missing_credential_run :
  POST {| json := Returns hello |} not_configured (answers (js "Olá")) =
    (Some {| resp_status := 500;
             resp_body := ErrorBody (js "Chave da OpenAI não configurada. Configure OPENAI_API_KEY nas variáveis de ambiente.") |},
     []).
Proof.
  apply (POST_missing_credential_is_misconfigured node_object_prototype _ hello);
    try reflexivity.
  left. reflexivity.
Defined.

(** C8 at the code [xx], which the table does not have. *)
Lemma POST_unknown_code_run :
  provider_calls
    (POST {| json := Returns {| text := Some (js "Hello"); sourceLang := Some (js "xx");
                                targetLang := Some (js "pt") |} |}
          configured (answers (js "Olá"))).2 =
    [ {| call_apiKey := Some (js "sk-test");
         call_request :=
           chat_request (js "Traduza o seguinte texto de undefined para Português. 
Retorne APENAS a tradução, sem explicações ou texto adicional.

Texto: Hello") |} ].
Proof.
  exact (proj1 (POST_passes_unknown_codes_through node_object_prototype
                  {| json := Returns {| text := Some (js "Hello");
                                        sourceLang := Some (js "xx");
                                        targetLang := Some (js "pt") |} |}
                  {| text := Some (js "Hello"); sourceLang := Some (js "xx");
                     targetLang := Some (js "pt") |}
                  configured (answers (js "Olá"))
                  eq_refl eq_refl eq_refl eq_refl eq_refl)).
Defined.

End Runs.

Section ClientRuns.

Import Client Scenario.

Lemma reachable_start : reachable start.
Proof. apply rtc_refl. Qed.

(** The end-to-end scenario: [Hello] from [en] to [pt], answered [Olá]. *)
Example handleTranslate_hello :
  handleTranslate (setTargetLang (js "pt") (setSourceLang (js "en") (typed (js "Hello"))))
                  (Ok (js "Olá")) (reading 1730000000000) =
    ({| sourceText := js "Hello"; translatedText := js "Olá";
        sourceLang := js "en"; targetLang := js "pt";
        isTranslating := false;
        history := [ {| id := js "1730000000000"; from := js "en"; to := js "pt";
                        original := js "Hello"; translated := js "Olá";
                        timestamp := 1730000000000 |} ];
        showHistory := false; copied := false; apiError := None |},
     [ fetch (js "/api/translate")
             {| req_text := js "Hello"; req_sourceLang := js "en"; req_targetLang := js "pt" |};
       toast_success (js "Tradução concluída!") ]).
Proof. vm_compute. reflexivity. Qed.

(** Eleven translations in a row: the history holds the last ten, the
    most recent first, and the first one is gone. *)
Example eleven_translations :
  exists c,
    run (mjoin ((fun n => translation_round (js "Hello") (js "Olá") n)
                  <$> [1; 2; 3; 4; 5; 6; 7; 8; 9; 10; 11]%N)) start = Some c /\
    id <$> history (ui c) =
      JsString.of_nat_number <$> [11; 10; 9; 8; 7; 6; 5; 4; 3; 2]%N.
Proof. eexists. split; vm_compute; reflexivity. Qed.

(** C3 at the state with the first request in flight. *)
Lemma history_first_request_run :
  (length (history (setApiError None (setIsTranslating true (typed (js "Hello"))))) <= 10)%nat /\
  exists c' effects,
    fire (settle 0 (Ok (js "Olá")) (reading 1730000000000))
         {| ui := setApiError None (setIsTranslating true (typed (js "Hello")));
            inflight := [typed (js "Hello")] |} = Some (c', effects) /\
    history (ui c') =
      [newTranslation (typed (js "Hello")) (js "Olá") (reading 1730000000000)].
Proof.
  destruct (history_keeps_ten_most_recent
              {| ui := setApiError None (setIsTranslating true (typed (js "Hello")));
                 inflight := [typed (js "Hello")] |}) as [Hbound Hsettle].
  - apply (run_reachable [type_source (js "Hello"); click_translate] start).
    + exact reachable_start.
    + vm_compute. reflexivity.
  - split; [exact Hbound|].
    destruct (Hsettle 0%nat (typed (js "Hello")) (js "Olá") (reading 1730000000000) eq_refl)
      as (c' & effects & Hfire & Hhistory & _).
    exists c', effects. split; [exact Hfire | exact Hhistory].
Defined.

(** C7 at a source text of two spaces. *)
Lemma handleTranslate_blank_run :
  handleTranslate (typed (js "  ")) (Ok (js "Olá")) (reading 1730000000000) =
    (typed (js "  "), [toast_error (js "Digite um texto para traduzir")]).
Proof.
  exact (proj1 (handleTranslate_blank_source (typed (js "  ")) (Ok (js "Olá"))
                  (reading 1730000000000) eq_refl)).
Defined.

(** C10 at a request the proxy answers with 429. *)
Lemma handleTranslate_failure_run :
  sourceText (handleTranslate (typed (js "Hello")) (NotOk (Some (js "Limite de uso da API atingido. Tente novamente mais tarde."))) (reading 1730000000000)).1 = js "Hello" /\
  history (handleTranslate (typed (js "Hello")) (NotOk (Some (js "Limite de uso da API atingido. Tente novamente mais tarde."))) (reading 1730000000000)).1 = [].
Proof.
  destruct (handleTranslate_failure_frame (typed (js "Hello"))
              (NotOk (Some (js "Limite de uso da API atingido. Tente novamente mais tarde.")))
              (reading 1730000000000))
    as [(Htext & _ & _ & _ & Hhistory) _].
  - intros translation. discriminate.
  - split; [exact Htext | exact Hhistory].
Defined.

(** C9 as stated fails: two translations that settle at the same reading
    of the clock leave two different records with the same [id]. *)
Lemma same_reading_same_id :
  exists c,
    run (translation_round (js "Hello") (js "Olá") 1730000000000 ++
         translation_round (js "Bye") (js "Tchau") 1730000000000) start = Some c /\
    reachable c /\
    original <$> history (ui c) = [js "Bye"; js "Hello"] /\
    id <$> history (ui c) = [js "1730000000000"; js "1730000000000"] /\
    ~ NoDup (id <$> history (ui c)).
Proof.
  eexists. split; [vm_compute; reflexivity|].
  split.
  - apply (run_reachable
             (translation_round (js "Hello") (js "Olá") 1730000000000 ++
              translation_round (js "Bye") (js "Tchau") 1730000000000) start);
      [exact reachable_start | vm_compute; reflexivity].
  - split; [vm_compute; reflexivity|].
    split; [vm_compute; reflexivity|].
    simpl. intros Hnodup. apply NoDup_cons in Hnodup as [Hnotin _].
    apply Hnotin. left.
Qed.

(** C9's second half at two records of the same round. *)
Lemma record_id_run :
  id (newTranslation (typed (js "Hello")) (js "Olá") (reading 1)) <>
  id (newTranslation (typed (js "Bye")) (js "Tchau") (reading 2)).
Proof.
  intros Hid.
  apply (proj2 (proj2 record_id_is_clock_reading)) in Hid. discriminate.
Defined.

End ClientRuns.

(** * Further properties *)

(** Membership in a list that is written out, by position. *)
Tactic Notation "at_index" integer(n) :=
  do n apply list_elem_of_further; apply list_elem_of_here.

(** ** Blank texts *)

Section Blank.

Import JsString.

Lemma trimStart_nil_iff (s : jsstring) :
  trimStart s = [] <-> Forall (fun c => is_white c = true) s.
Proof.
  induction s as [|c s IH]; simpl.
  - split; [constructor | reflexivity].
  - destruct (is_white c) eqn:Hc.
    + rewrite IH. split; [intros H; constructor; assumption|].
      intros H. apply Forall_cons in H as [_ H]. exact H.
    + split; [discriminate|].
      intros H. apply Forall_cons in H as [H _]. congruence.
Qed.

Lemma all_white_iff (s : jsstring) :
  forallb is_white s = true <-> Forall (fun c => is_white c = true) s.
Proof.
  induction s as [|c s IH]; simpl.
  - split; [constructor | reflexivity].
  - rewrite andb_true_iff, IH, Forall_cons. reflexivity.
Qed.

(** [s.trim()] is empty exactly when [s] has white space only. *)
Lemma trim_nil_iff (s : jsstring) :
  trim s = [] <-> forallb is_white s = true.
Proof.
  rewrite all_white_iff, <- trimStart_nil_iff.
  unfold trim, trimEnd. split.
  - intros H. apply (f_equal reverse) in H.
    rewrite reverse_involutive, reverse_nil in H.
    apply trimStart_nil_iff, Forall_reverse in H.
    rewrite reverse_involutive in H.
    destruct (trimStart s) as [|c t] eqn:Ht; [reflexivity|].
    apply Forall_cons in H as [H _].
    rewrite (trimStart_head s c) in H; [discriminate | rewrite Ht; reflexivity].
  - intros ->. reflexivity.
Qed.

End Blank.

(** ** One press of the button *)

Section Press.

Import Client Session.

(** X2. Whatever the outcome, an invocation of [handleTranslate] sends
    exactly one request, with the text and the codes of the state as they
    are, when the source text has a character that is not white space, and
    none when it has not. *)
Theorem handleTranslate_sends_one_request (s : State) (o : FetchOutcome) (clock : Clock) :
  requests (handleTranslate s o clock).2 =
    if forallb JsString.is_white (sourceText s) then []
    else [ {| req_text := sourceText s;
              req_sourceLang := sourceLang s;
              req_targetLang := targetLang s |} ].
Proof.
  pose proof (trim_nil_iff (sourceText s)) as Hblank.
  unfold handleTranslate, handleTranslate_begin.
  destruct (forallb JsString.is_white (sourceText s)).
  - rewrite (proj2 Hblank eq_refl). reflexivity.
  - destruct (JsString.trim (sourceText s)) eqn:Htrim.
    + destruct Hblank as [Hblank _]. discriminate (Hblank eq_refl).
    + destruct o; reflexivity.
Qed.

End Press.

(** ** The answers of the proxy *)

Section Answers.

Import Maybe Proxy.

Context (object_prototype : jsstring -> option jsstring).

Local Abbreviation POST := (Proxy.POST object_prototype).

(** The five messages of [route.ts]. *)
Local Abbreviation messages_of_the_proxy :=
  [ js "Parâmetros inválidos";
    js "Chave da OpenAI não configurada. Configure OPENAI_API_KEY nas variáveis de ambiente.";
    js "Chave da OpenAI inválida. Verifique sua configuração.";
    js "Limite de uso da API atingido. Tente novamente mais tarde.";
    js "Erro ao processar tradução. Tente novamente." ].

(** What the [try] block returns: one of its three [return]s. *)
Lemma try_block_returns (request : NextRequest) (env : Env) (openai : Provider)
      (r : NextResponse) (log : list Effect) :
  Proxy.try_block object_prototype request env openai [] = (Returns r, log) ->
  r = {| resp_status := 400; resp_body := ErrorBody (js "Parâmetros inválidos") |} \/
  r = {| resp_status := 500;
         resp_body := ErrorBody (js "Chave da OpenAI não configurada. Configure OPENAI_API_KEY nas variáveis de ambiente.") |} \/
  exists completion,
    r = {| resp_status := 200; resp_body := TranslationBody (translation_of completion) |}.
Proof.
  unfold Proxy.try_block, bind, await, ret, create, NextResponse_json.
  destruct (json request) as [body|e]; [|discriminate].
  destruct (negb (truthy (text body)) || negb (truthy (sourceLang body)) ||
            negb (truthy (targetLang body))).
  - intros [= <- _]. left. reflexivity.
  - destruct (negb (truthy (OPENAI_API_KEY env))).
    + intros [= <- _]. right. left. reflexivity.
    + destruct (openai _) as [completion|e]; [|discriminate].
      intros [= <- _]. right. right. exists completion. reflexivity.
Qed.

(** The answer is one of six. *)
Lemma POST_answers (request : NextRequest) (env : Env) (openai : Provider) :
  exists r, (POST request env openai).1 = Some r /\
    ((exists completion,
        r = {| resp_status := 200;
               resp_body := TranslationBody (translation_of completion) |}) \/
     exists status m,
       r = {| resp_status := status; resp_body := ErrorBody m |} /\
       status ∈ [400; 401; 429; 500] /\ m ∈ messages_of_the_proxy).
Proof.
  unfold Proxy.POST, POST_handler, try_catch.
  destruct (Proxy.try_block _ _ _ _ _) as [[r|e] log] eqn:Htry.
  - exists r. split; [reflexivity|].
    apply try_block_returns in Htry as [->|[->|[completion ->]]].
    + right. eexists _, _. split; [reflexivity|]. split; [at_index 0 | at_index 0].
    + right. eexists _, _. split; [reflexivity|]. split; [at_index 3 | at_index 1].
    + left. exists completion. reflexivity.
  - destruct (catch_clause_cases e log) as (Hauth & Hrate & Hother).
    destruct (classic_bad e) as [Hbad|Hbad].
    + rewrite Hauth by exact Hbad. eexists. split; [reflexivity|].
      right. eexists _, _. split; [reflexivity|]. split; [at_index 1 | at_index 2].
    + destruct (decide (status e = Some 429)) as [H429|H429].
      * rewrite Hrate by assumption. eexists. split; [reflexivity|].
        right. eexists _, _. split; [reflexivity|]. split; [at_index 2 | at_index 3].
      * rewrite Hother by assumption. eexists. split; [reflexivity|].
        right. eexists _, _. split; [reflexivity|]. split; [at_index 3 | at_index 4].
Qed.

Lemma messages_not_empty (m : jsstring) :
  m ∈ messages_of_the_proxy -> JsString.truthy m = true.
Proof.
  intros Hm. repeat (apply elem_of_cons in Hm as [->|Hm]; [vm_compute; reflexivity|]).
  apply elem_of_nil in Hm. contradiction.
Qed.

(** X1. [POST] answers every request, and its answer has one of two
    shapes: status 200 with a [{ translation }] body, or status 400, 401,
    429 or 500 with an [{ error }] body whose message is one of the five
    texts of the file, none of them empty: what the provider or the parser
    wrote in its error is never passed on. *)
Theorem POST_answer_shape (request : NextRequest) (env : Env) (openai : Provider) :
  exists r, (POST request env openai).1 = Some r /\
    match resp_body r with
    | TranslationBody _ => resp_status r = 200
    | ErrorBody m =>
      resp_status r ∈ [400; 401; 429; 500] /\
      m ∈ messages_of_the_proxy /\ m <> JsString.empty
    end.
Proof.
  destruct (POST_answers request env openai) as (r & Hr & [[completion ->]|Herr]).
  - eexists. split; [exact Hr | reflexivity].
  - destruct Herr as (status & m & -> & Hstatus & Hm).
    eexists. split; [exact Hr|]. simpl. split; [exact Hstatus|].
    split; [exact Hm|]. intros ->. apply messages_not_empty in Hm. discriminate.
Qed.

(** X8. The page can read every answer of the proxy: [response.ok] holds
    exactly for the answer with a translation, which it takes as the
    translation, and for every other answer [data.error] is there and not
    empty, so the message it shows is the proxy's and the fallback
    [Erro ao traduzir] is not used. *)
Theorem page_reads_every_answer (request : NextRequest) (env : Env) (openai : Provider) :
  exists r o, (POST request env openai).1 = Some r /\
    Wire.outcome_of r = Some o /\
    match o with
    | Client.Ok t => resp_body r = TranslationBody t /\ Wire.ok r = true
    | Client.NotOk e =>
      exists m, e = Some m /\ resp_body r = ErrorBody m /\ Wire.ok r = false /\
                Maybe.or_else e (js "Erro ao traduzir") = m
    | Client.Rejected => False
    end.
Proof.
  destruct (POST_answers request env openai) as (r & Hr & [[completion ->]|Herr]).
  - eexists _, _. split; [exact Hr|]. split; [reflexivity|]. split; reflexivity.
  - destruct Herr as (status & m & -> & Hstatus & Hm).
    assert (Hok : Wire.ok {| resp_status := status; resp_body := ErrorBody m |} = false).
    { unfold Wire.ok. simpl.
      repeat (apply elem_of_cons in Hstatus as [->|Hstatus]; [reflexivity|]).
      apply elem_of_nil in Hstatus. contradiction. }
    exists {| resp_status := status; resp_body := ErrorBody m |}, (Client.NotOk (Some m)).
    split; [exact Hr|].
    split; [unfold Wire.outcome_of; simpl; rewrite Hok; reflexivity|].
    exists m. split; [reflexivity|]. split; [reflexivity|]. split; [exact Hok|].
    unfold or_else. simpl. rewrite (messages_not_empty m Hm). reflexivity.
Qed.

End Answers.

(** ** A session of the page *)

Section SessionFacts.

Import Client Session.

Local Open Scope nat_scope.

Ltac guards H :=
  unfold fire, update in H;
  repeat match type of H with
         | (if ?b then _ else _) = Some _ => destruct b eqn:?
         | (?o ≫= _) = Some _ => destruct o eqn:?; simpl in H
         | None = Some _ => discriminate H
         end.

Lemma consistent_start : consistent start.
Proof.
  split; simpl.
  - split; [discriminate | congruence].
  - congruence.
  - split; simpl; [at_index 0 | at_index 1 | constructor].
  - constructor.
Qed.

(** A step that leaves the flag, the error and the requests in flight
    alone, and ends with known codes, keeps [consistent]. *)
Lemma consistent_keep (c : Config) (s : State) :
  consistent c ->
  isTranslating s = isTranslating (ui c) -> apiError s = apiError (ui c) ->
  known_languages s ->
  consistent {| ui := s; inflight := inflight c |}.
Proof.
  intros [Hflag Herror Hui Hwaiting] Hsame_flag Hsame_error Hknown. split; simpl.
  - rewrite Hsame_flag. exact Hflag.
  - rewrite Hsame_error. exact Herror.
  - exact Hknown.
  - exact Hwaiting.
Qed.

Lemma known_code_of_select (i : nat) (l : Language) :
  languages !! i = Some l -> known_code (code l).
Proof.
  intros Hl. unfold known_code. apply list_elem_of_fmap_2.
  eapply list_elem_of_lookup_2. exact Hl.
Qed.

Lemma consistent_fire (e : Event) (c c' : Config) (effects : list Effect) :
  invariant c -> consistent c -> fire e c = Some (c', effects) -> consistent c'.
Proof.
  intros Hinv Hcons Hfire.
  pose proof (known_ui c Hcons) as [Hsource Htarget Hhistory].
  destruct e as [v|i|i| | |i| | | | | |i o clock]; guards Hfire;
    try (injection Hfire as <- <-;
         apply consistent_keep; [exact Hcons | reflexivity | reflexivity |];
         split; simpl; try assumption).
  - (* select_source *) eapply known_code_of_select. eassumption.
  - (* select_target *) eapply known_code_of_select. eassumption.
  - (* click_item: source *)
    eapply (Forall_lookup_1 _ _ _ _ Hhistory). eassumption.
  - (* click_item: target *)
    eapply (Forall_lookup_1 _ _ _ _ Hhistory). eassumption.
  - (* click_translate *)
    destruct Hcons as [Hflag Herror Hui Hwaiting].
    match goal with H : translate_disabled _ = false |- _ => rename H into Henabled end.
    unfold translate_disabled in Henabled.
    apply orb_false_iff in Henabled as [Hdown Htext].
    assert (Hnone : inflight c = []).
    { destruct (inflight c) eqn:Hi; [reflexivity|].
      rewrite (proj2 Hflag) in Hdown; [discriminate | congruence]. }
    unfold handleTranslate_begin in Hfire. rewrite Htext, Hnone in Hfire.
    injection Hfire as <- <-.
    split; simpl.
    + split; [congruence | reflexivity].
    + reflexivity.
    + split; simpl; assumption.
    + constructor; [exact Hui | constructor].
  - (* settle *)
    destruct Hinv as [_ Hsingle _ _].
    destruct Hcons as [Hflag Herror Hui Hwaiting].
    match goal with H : inflight c !! i = Some ?x |- _ =>
      rename H into Hlookup; rename x into r end.
    assert (Hone : inflight c = [r] /\ i = 0).
    { destruct (inflight c) as [|r0 [|r1 rest]]; simpl in Hsingle; try lia.
      - discriminate.
      - destruct i; simpl in Hlookup; [split; congruence | discriminate]. }
    destruct Hone as [Hone ->].
    assert (Hr : known_languages r).
    { rewrite Hone in Hwaiting. apply Forall_cons in Hwaiting as [Hr _]. exact Hr. }
    destruct Hr as [Hrsource Hrtarget Hrhistory].
    destruct (handleTranslate_resume r o clock (ui c)) as [s1 effects1] eqn:Hres.
    injection Hfire as <- <-. rewrite Hone. simpl.
    split; simpl.
    + split; [|congruence].
      intros Hup. destruct o; simpl in Hres; injection Hres as <- _; discriminate.
    + congruence.
    + destruct o; simpl in Hres; injection Hres as <- _;
        split; simpl; try assumption.
      constructor; [split; assumption | apply Forall_take; exact Hrhistory].
    + constructor.
Qed.

Lemma reachable_consistent (c : Config) : reachable c -> consistent c.
Proof.
  intros Hreach.
  cut (invariant c /\ consistent c); [tauto|].
  revert c Hreach. apply rtc_ind_r.
  - split; [exact invariant_start | exact consistent_start].
  - intros c1 c2 _ (e & effects & Hfire) [Hinv Hcons]. split.
    + exact (invariant_fire e c1 c2 effects Hinv Hfire).
    + exact (consistent_fire e c1 c2 effects Hinv Hcons Hfire).
Qed.

(** The two tables agree: a code the [Select]s offer is not empty, the
    page finds its name, and the proxy has the same name under it. *)
Lemma known_code_name (c : jsstring) :
  known_code c ->
  JsString.truthy c = true /\
  exists n, View.language_name c = Some n /\
            Proxy.own_property Proxy.languageNames c = Some n.
Proof.
  unfold known_code, languages. simpl. intros Hc.
  repeat (apply elem_of_cons in Hc as [->|Hc];
          [split; [vm_compute; reflexivity | eexists; split; vm_compute; reflexivity]|]).
  apply elem_of_nil in Hc. contradiction.
Qed.

(** X3. In every reachable state at most one request is in flight, the
    flag [isTranslating] is up exactly while one is, and the button does
    nothing until it has settled. *)
Theorem one_request_in_flight (c : Config) :
  reachable c ->
  length (inflight c) <= 1 /\
  (isTranslating (ui c) = true <-> inflight c <> []) /\
  (inflight c <> [] -> fire click_translate c = None).
Proof.
  intros Hreach.
  destruct (reachable_invariant c Hreach) as [_ Hsingle _ _].
  destruct (reachable_consistent c Hreach) as [Hflag _ _ _].
  split; [exact Hsingle|]. split; [exact Hflag|].
  intros Hwaiting. apply Hflag in Hwaiting.
  unfold fire, translate_disabled. rewrite Hwaiting. reflexivity.
Qed.

(** X4. In every reachable state the two selected codes, and the two codes
    of every record of the history, are codes of [languages]: the lookup
    [languages.find(...)?.name] of the history list always finds a name. *)
Theorem history_names_are_found (c : Config) :
  reachable c ->
  is_Some (View.language_name (sourceLang (ui c))) /\
  is_Some (View.language_name (targetLang (ui c))) /\
  forall item, item ∈ history (ui c) ->
    is_Some (View.language_name (from item)) /\
    is_Some (View.language_name (to item)).
Proof.
  intros Hreach.
  destruct (reachable_consistent c Hreach) as [_ _ [Hsource Htarget Hhistory] _].
  assert (Hname : forall code, known_code code -> is_Some (View.language_name code)).
  { intros code Hcode. destruct (known_code_name code Hcode) as (_ & n & Hn & _).
    exists n. exact Hn. }
  split; [apply Hname; exact Hsource|]. split; [apply Hname; exact Htarget|].
  intros item Hitem.
  destruct (proj1 (Forall_forall _ _) Hhistory item Hitem) as [Hfrom Hto].
  split; apply Hname; assumption.
Qed.

(** A body whose three fields are not empty is not answered 400. *)
Lemma POST_valid_not_400 (object_prototype : jsstring -> option jsstring)
      (request : Proxy.NextRequest) (body : Proxy.Body)
      (env : Proxy.Env) (openai : Proxy.Provider) :
  Proxy.json request = Proxy.Returns body ->
  Maybe.truthy (Proxy.text body) = true ->
  Maybe.truthy (Proxy.sourceLang body) = true ->
  Maybe.truthy (Proxy.targetLang body) = true ->
  exists r, (Proxy.POST object_prototype request env openai).1 = Some r /\
            Proxy.resp_status r <> 400%N.
Proof.
  intros Hjson Ht Hs Hg.
  destruct (Maybe.truthy (Proxy.OPENAI_API_KEY env)) eqn:Hk.
  - unfold Proxy.POST, Proxy.POST_handler, Proxy.try_catch.
    rewrite (try_block_calls_provider object_prototype request body env openai)
      by assumption.
    destruct (openai _) as [completion|e].
    + eexists. split; [reflexivity | discriminate].
    + match goal with |- context [Proxy.catch_clause e ?l] =>
        destruct (catch_clause_cases e l) as (Hauth & Hrate & Hother) end.
      destruct (classic_bad e) as [Hbad|Hbad].
      * rewrite Hauth by exact Hbad. eexists. split; [reflexivity | discriminate].
      * destruct (decide (Proxy.status e = Some 429%N)) as [H429|H429].
        -- rewrite Hrate by assumption. eexists. split; [reflexivity | discriminate].
        -- rewrite Hother by assumption. eexists. split; [reflexivity | discriminate].
  - unfold Proxy.POST, Proxy.POST_handler, Proxy.try_catch, Proxy.try_block,
      Proxy.bind, Proxy.await, Proxy.ret, Proxy.NextResponse_json.
    rewrite Hjson. simpl. rewrite Ht, Hs, Hg, Hk. simpl.
    eexists. split; [reflexivity | discriminate].
Qed.

(** X5. A request the page sends passes the validation of the proxy, and
    its two codes are keys of [languageNames]: [POST] does not answer it
    with 400, and the prompt names both languages as the page does, with
    no [undefined] and nothing inherited in it. *)
Theorem page_requests_are_valid (c c' : Config) (effects : list Effect) :
  reachable c ->
  fire click_translate c = Some (c', effects) ->
  exists b n m,
    effects = [fetch (js "/api/translate") b] /\
    View.language_name (req_sourceLang b) = Some n /\
    View.language_name (req_targetLang b) = Some m /\
    forall object_prototype,
      (forall env openai,
         exists r, (Proxy.POST object_prototype (Wire.request_of b) env openai).1 = Some r /\
                   Proxy.resp_status r <> 400%N) /\
      Proxy.prompt object_prototype
        (Some (req_text b)) (Some (req_sourceLang b)) (Some (req_targetLang b)) =
        js "Traduza o seguinte texto de " ++ n ++ js " para " ++ m ++
        js ". 
Retorne APENAS a tradução, sem explicações ou texto adicional.

Texto: " ++ req_text b.
Proof.
  intros Hreach Hfire.
  destruct (reachable_consistent c Hreach) as [_ _ [Hsource Htarget _] _].
  destruct (known_code_name _ Hsource) as (Hs & n & Hn & Hown_n).
  destruct (known_code_name _ Htarget) as (Hg & m & Hm & Hown_m).
  unfold fire in Hfire.
  destruct (translate_disabled (ui c)) eqn:Henabled; [discriminate|].
  unfold translate_disabled in Henabled.
  apply orb_false_iff in Henabled as [_ Htext].
  unfold handleTranslate_begin in Hfire. rewrite Htext in Hfire.
  injection Hfire as _ <-.
  eexists _, n, m. split; [reflexivity|]. simpl.
  split; [exact Hn|]. split; [exact Hm|].
  intros object_prototype. split.
  - intros env openai.
    apply (POST_valid_not_400 object_prototype _
             {| Proxy.text := Some (sourceText (ui c));
                Proxy.sourceLang := Some (sourceLang (ui c));
                Proxy.targetLang := Some (targetLang (ui c)) |});
      [reflexivity | | exact Hs | exact Hg].
    simpl. apply negb_false_iff in Htext.
    destruct (sourceText (ui c)); [discriminate | reflexivity].
  - unfold Proxy.prompt, Proxy.get.
    change (Maybe.to_string (Some (sourceLang (ui c)))) with (sourceLang (ui c)).
    change (Maybe.to_string (Some (targetLang (ui c)))) with (targetLang (ui c)).
    rewrite Hown_n, Hown_m. reflexivity.
Qed.

(** X6. When the request in flight settles with a translation, the page
    shows it with no error and the flag down, nothing is left in flight,
    and the record at the front of the history has the text and the codes
    of the render that sent the request; the text and the codes on the
    page, which the user may have changed meanwhile, stay as they are. *)
Theorem settled_translation (c : Config) (i : nat) (r : State)
    (translation : jsstring) (clock : Clock) :
  reachable c ->
  inflight c !! i = Some r ->
  exists c',
    fire (settle i (Ok translation) clock) c =
      Some (c', [toast_success (js "Tradução concluída!")]) /\
    inflight c' = [] /\
    translatedText (ui c') = translation /\
    apiError (ui c') = None /\
    isTranslating (ui c') = false /\
    history (ui c') !! 0 =
      Some {| id := JsString.of_nat_number (Date_now clock);
              from := sourceLang r; to := targetLang r;
              original := sourceText r; translated := translation;
              timestamp := new_Date clock |} /\
    sourceText (ui c') = sourceText (ui c) /\
    sourceLang (ui c') = sourceLang (ui c) /\
    targetLang (ui c') = targetLang (ui c).
Proof.
  intros Hreach Hlookup.
  destruct (reachable_invariant c Hreach) as [_ Hsingle _ _].
  destruct (reachable_consistent c Hreach) as [_ Herror _ _].
  assert (Hone : inflight c = [r] /\ i = 0).
  { destruct (inflight c) as [|r0 [|r1 rest]]; simpl in Hsingle; try lia.
    - discriminate.
    - destruct i; simpl in Hlookup; [split; congruence | discriminate]. }
  destruct Hone as [Hone ->].
  eexists. split; [unfold fire; rewrite Hlookup; reflexivity|].
  simpl. rewrite Hone. simpl.
  split; [reflexivity|]. split; [reflexivity|].
  split; [apply Herror; rewrite Hone; discriminate|].
  repeat split.
Qed.

End SessionFacts.

(** ** Loading a record *)

Section Reload.

Import Client Session.

(** The state after [loadFromHistory] of the record a request made. *)
Local Abbreviation reloaded r translation clock s :=
  (loadFromHistory (newTranslation r translation clock) s).1.

(** X7. Loading the record of a translation puts back the text, the two
    codes and the translation of the request that made it, closes the
    panel and leaves the history as it is; an invocation of
    [handleTranslate] on that state sends the request again as it was. *)
Theorem reload_repeats_request (r s : State) (translation : jsstring) (clock : Clock) :
  sourceText (reloaded r translation clock s) = sourceText r /\
  translatedText (reloaded r translation clock s) = translation /\
  sourceLang (reloaded r translation clock s) = sourceLang r /\
  targetLang (reloaded r translation clock s) = targetLang r /\
  showHistory (reloaded r translation clock s) = false /\
  history (reloaded r translation clock s) = history s /\
  forall o clock',
    requests (handleTranslate (reloaded r translation clock s) o clock').2 =
    requests (handleTranslate r o clock').2.
Proof.
  repeat (split; [reflexivity|]).
  intros o clock'. unfold handleTranslate, handleTranslate_begin. simpl.
  destruct (JsString.trim (sourceText r)); [reflexivity|].
  destruct o; reflexivity.
Qed.

End Reload.

(** ** The page and the proxy together *)

Section EndToEnd.

Import Maybe Proxy.

Context (object_prototype : jsstring -> option jsstring).

Local Abbreviation POST := (Proxy.POST object_prototype).

Local Abbreviation the_call body env :=
  (completion_call object_prototype (OPENAI_API_KEY env)
     (text body) (sourceLang body) (targetLang body)).

(** [POST] on a parsed body, as a decision tree. *)
Lemma POST_of_body (request : NextRequest) (body : Body) (env : Env) (openai : Provider) :
  json request = Returns body ->
  POST request env openai =
    if negb (truthy (text body)) || negb (truthy (sourceLang body)) ||
       negb (truthy (targetLang body))
    then (Some {| resp_status := 400; resp_body := ErrorBody (js "Parâmetros inválidos") |}, [])
    else if negb (truthy (OPENAI_API_KEY env))
    then (Some {| resp_status := 500;
                  resp_body := ErrorBody (js "Chave da OpenAI não configurada. Configure OPENAI_API_KEY nas variáveis de ambiente.") |},
          [])
    else
      match openai (the_call body env) with
      | Returns completion =>
        (Some {| resp_status := 200;
                 resp_body := TranslationBody (translation_of completion) |},
         [completions_create (the_call body env)])
      | Throws e =>
        (Some (if bool_decide (status e = Some 401) ||
                  match message e with
                  | Some m => JsString.includes m (js "Incorrect API key")
                  | None => false
                  end
               then {| resp_status := 401;
                       resp_body := ErrorBody (js "Chave da OpenAI inválida. Verifique sua configuração.") |}
               else if bool_decide (status e = Some 429)
               then {| resp_status := 429;
                       resp_body := ErrorBody (js "Limite de uso da API atingido. Tente novamente mais tarde.") |}
               else {| resp_status := 500;
                       resp_body := ErrorBody (js "Erro ao processar tradução. Tente novamente.") |}),
         [completions_create (the_call body env); console_error e])
      end.
Proof.
  intros Hjson.
  unfold Proxy.POST, POST_handler, try_catch, Proxy.try_block, catch_clause,
    bind, await, ret, create, log_error, NextResponse_json.
  rewrite Hjson. simpl.
  destruct (negb (truthy (text body)) || negb (truthy (sourceLang body)) ||
            negb (truthy (targetLang body))); [reflexivity|].
  destruct (negb (truthy (OPENAI_API_KEY env))); [reflexivity|].
  destruct (openai _) as [completion|e]; [reflexivity|]. simpl.
  destruct (_ || _); [reflexivity|].
  destruct (bool_decide _); reflexivity.
Qed.

(** The request of a state with something to translate. *)
Local Abbreviation request_from s :=
  {| Client.req_text := Client.sourceText s;
     Client.req_sourceLang := Client.sourceLang s;
     Client.req_targetLang := Client.targetLang s |}.

Local Abbreviation body_from s :=
  {| text := Some (Client.sourceText s);
     sourceLang := Some (Client.sourceLang s);
     targetLang := Some (Client.targetLang s) |}.

Lemma translate_of_answer (env : Env) (openai : Provider)
      (s : Client.State) (clock : Client.Clock) (r : NextResponse) (log : list Effect)
      (o : Client.FetchOutcome) :
  JsString.trim (Client.sourceText s) <> JsString.empty ->
  POST (Wire.request_of (request_from s)) env openai = (Some r, log) ->
  Wire.outcome_of r = Some o ->
  Wire.translate object_prototype env openai s clock =
    Some ((Client.handleTranslate_resume s o clock
             (Client.setApiError None (Client.setIsTranslating true s))).1,
          Client.fetch (js "/api/translate") (request_from s) ::
          (Client.handleTranslate_resume s o clock
             (Client.setApiError None (Client.setIsTranslating true s))).2,
          log).
Proof.
  intros Htext HPOST Ho.
  unfold Wire.translate, Client.handleTranslate_begin.
  destruct (JsString.trim (Client.sourceText s)) eqn:Htrim; [contradiction|]. simpl.
  rewrite HPOST. simpl. rewrite Ho. simpl.
  destruct (Client.handleTranslate_resume _ _ _ _). reflexivity.
Qed.

(** X10. From the button to the provider and back: when the text is not
    blank, the codes are not empty, the key is configured and the provider
    answers, the page ends with the trimmed content of the first choice as
    its translation and in a new record at the front of the history, no
    error and the flag down, after one request and one provider call. *)
Theorem translate_end_to_end (env : Env) (openai : Provider)
    (s : Client.State) (clock : Client.Clock) (completion : ChatCompletion) :
  JsString.trim (Client.sourceText s) <> JsString.empty ->
  JsString.truthy (Client.sourceLang s) = true ->
  JsString.truthy (Client.targetLang s) = true ->
  truthy (OPENAI_API_KEY env) = true ->
  openai (completion_call object_prototype (OPENAI_API_KEY env)
            (Some (Client.sourceText s)) (Some (Client.sourceLang s))
            (Some (Client.targetLang s))) = Returns completion ->
  Wire.translate object_prototype env openai s clock =
    Some
      (Client.setIsTranslating false
         (Client.setHistory
            (Client.newTranslation s (translation_of completion) clock ::
             take 9 (Client.history s))
            (Client.setTranslatedText (translation_of completion)
               (Client.setApiError None s))),
       [ Client.fetch (js "/api/translate") (request_from s);
         Client.toast_success (js "Tradução concluída!") ],
       [ completions_create
           (completion_call object_prototype (OPENAI_API_KEY env)
              (Some (Client.sourceText s)) (Some (Client.sourceLang s))
              (Some (Client.targetLang s))) ]).
Proof.
  intros Htext Hs Hg Hk Hcall.
  assert (Ht : JsString.truthy (Client.sourceText s) = true).
  { destruct (Client.sourceText s); [contradiction Htext; reflexivity | reflexivity]. }
  rewrite (translate_of_answer env openai s clock
             {| resp_status := 200;
                resp_body := TranslationBody (translation_of completion) |}
             [completions_create
                (completion_call object_prototype (OPENAI_API_KEY env)
                   (Some (Client.sourceText s)) (Some (Client.sourceLang s))
                   (Some (Client.targetLang s)))]
             (Client.Ok (translation_of completion)) Htext).
  - reflexivity.
  - rewrite (POST_of_body (Wire.request_of (request_from s)) (body_from s)
               env openai eq_refl). simpl.
    rewrite Ht, Hs, Hg, Hk. simpl. rewrite Hcall. reflexivity.
  - reflexivity.
Qed.

(** X9. After a press of the button answered by the proxy, the alert is
    shown exactly when the answer is not the 200, and the steps to
    configure the key are shown under it exactly when the answer is the
    401, or the 500 of a key that is not configured: not for a 400, a 429
    or the 500 of another failure. *)
Theorem key_help_is_shown (env : Env) (openai : Provider)
    (s : Client.State) (clock : Client.Clock) :
  JsString.trim (Client.sourceText s) <> JsString.empty ->
  exists s' effects log r,
    Wire.translate object_prototype env openai s clock = Some (s', effects, log) /\
    POST (Wire.request_of (request_from s)) env openai = (Some r, log) /\
    (View.alert_shown s' = true <-> resp_status r <> 200) /\
    (View.key_help_shown s' = true <->
     resp_status r = 401 \/
     (resp_status r = 500 /\ truthy (OPENAI_API_KEY env) = false)).
Proof.
  intros Htext.
  pose proof (POST_of_body (Wire.request_of (request_from s)) (body_from s)
                env openai eq_refl) as HPOST.
  pose proof (fun r log o => translate_of_answer env openai s clock r log o Htext)
    as Hwire.
  simpl in HPOST.
  destruct (negb (JsString.truthy (Client.sourceText s)) ||
            negb (JsString.truthy (Client.sourceLang s)) ||
            negb (JsString.truthy (Client.targetLang s))).
  { eexists _, _, _, _. split; [exact (Hwire _ _ _ HPOST eq_refl)|].
    split; [exact HPOST|]. split; split.
    - discriminate.
    - reflexivity.
    - intros H. vm_compute in H. discriminate.
    - intros [H|[H _]]; discriminate. }
  destruct (truthy (OPENAI_API_KEY env)) eqn:Hk; simpl in HPOST.
  2:{ eexists _, _, _, _. split; [exact (Hwire _ _ _ HPOST eq_refl)|].
      split; [exact HPOST|]. split; split.
      - discriminate.
      - reflexivity.
      - intros _. right. split; reflexivity.
      - intros _. vm_compute. reflexivity. }
  destruct (openai _) as [completion|e].
  { eexists _, _, _, _. split; [exact (Hwire _ _ _ HPOST eq_refl)|].
    split; [exact HPOST|]. split; split.
    - intros H. vm_compute in H. discriminate.
    - intros H. contradiction H. reflexivity.
    - intros H. vm_compute in H. discriminate.
    - intros [H|[H H']]; discriminate. }
  destruct (_ || _).
  { eexists _, _, _, _. split; [exact (Hwire _ _ _ HPOST eq_refl)|].
    split; [exact HPOST|]. split; split.
    - discriminate.
    - reflexivity.
    - intros _. left. reflexivity.
    - intros _. vm_compute. reflexivity. }
  destruct (bool_decide _).
  - eexists _, _, _, _. split; [exact (Hwire _ _ _ HPOST eq_refl)|].
    split; [exact HPOST|]. split; split.
    + discriminate.
    + reflexivity.
    + intros H. vm_compute in H. discriminate.
    + intros [H|[H _]]; discriminate.
  - eexists _, _, _, _. split; [exact (Hwire _ _ _ HPOST eq_refl)|].
    split; [exact HPOST|]. split; split.
    + discriminate.
    + reflexivity.
    + intros H. vm_compute in H. discriminate.
    + intros [H|[_ H]]; discriminate.
Qed.

End EndToEnd.

(** ** The further properties, run *)

Section FurtherRuns.

Import Client Session Scenario.

(** [Hello] is typed. *)
Local Abbreviation hello_typed := {| ui := typed (js "Hello"); inflight := [] |}.

(** The button is pressed, the request is in flight. *)
Local Abbreviation hello_sent :=
  {| ui := setApiError None (setIsTranslating true (typed (js "Hello")));
     inflight := [typed (js "Hello")] |}.

Lemma hello_typed_reachable : reachable hello_typed.
Proof.
  apply (run_reachable [type_source (js "Hello")] start);
    [exact reachable_start | vm_compute; reflexivity].
Qed.

Lemma hello_sent_reachable : reachable hello_sent.
Proof.
  apply (run_reachable [type_source (js "Hello"); click_translate] start);
    [exact reachable_start | vm_compute; reflexivity].
Qed.

(** X3 while the request for [Hello] is in flight. *)
Lemma second_press_run : fire click_translate hello_sent = None.
Proof.
  apply (one_request_in_flight hello_sent hello_sent_reachable). discriminate.
Defined.

(** X4 after one round. *)
Lemma history_names_run :
  is_Some (View.language_name
             (from (newTranslation (typed (js "Hello")) (js "Olá") (reading 1)))) /\
  is_Some (View.language_name
             (to (newTranslation (typed (js "Hello")) (js "Olá") (reading 1)))).
Proof.
  refine (proj2 (proj2 (history_names_are_found
            {| ui := setIsTranslating false
                       (setHistory
                          [newTranslation (typed (js "Hello")) (js "Olá") (reading 1)]
                          (setTranslatedText (js "Olá")
                             (setApiError None (setIsTranslating true (typed (js "Hello"))))));
               inflight := [] |} _)) _ _).
  - apply (run_reachable (translation_round (js "Hello") (js "Olá") 1) start);
      [exact reachable_start | vm_compute; reflexivity].
  - apply list_elem_of_here.
Defined.

(** X5 at the press of the button on [Hello]. *)
Lemma page_request_run :
  exists b n m,
    [fetch (js "/api/translate")
       {| req_text := js "Hello"; req_sourceLang := js "pt"; req_targetLang := js "en" |}] =
      [fetch (js "/api/translate") b] /\
    View.language_name (req_sourceLang b) = Some n /\
    View.language_name (req_targetLang b) = Some m.
Proof.
  destruct (page_requests_are_valid hello_typed hello_sent
              [fetch (js "/api/translate")
                 {| req_text := js "Hello"; req_sourceLang := js "pt";
                    req_targetLang := js "en" |}]
              hello_typed_reachable eq_refl)
    as (b & n & m & Heffects & Hn & Hm & _).
  exists b, n, m. split; [exact Heffects|]. split; [exact Hn | exact Hm].
Defined.

(** X6 when the request for [Hello] settles. *)
Lemma settled_translation_run :
  exists c',
    fire (settle 0 (Ok (js "Olá")) (reading 1)) hello_sent =
      Some (c', [toast_success (js "Tradução concluída!")]) /\
    translatedText (ui c') = js "Olá" /\
    apiError (ui c') = None.
Proof.
  destruct (settled_translation hello_sent 0 (typed (js "Hello")) (js "Olá") (reading 1)
              hello_sent_reachable eq_refl)
    as (c' & Hfire & _ & Htranslated & Herror & _).
  exists c'. split; [exact Hfire|]. split; [exact Htranslated | exact Herror].
Defined.

(** X9 at [Hello] without a key. *)
Lemma key_help_run :
  exists s' effects log r,
    Wire.translate node_object_prototype not_configured (answers (js "Olá"))
                   (typed (js "Hello")) (reading 1) = Some (s', effects, log) /\
    Proxy.POST node_object_prototype
      (Wire.request_of {| req_text := js "Hello"; req_sourceLang := js "pt";
                          req_targetLang := js "en" |})
      not_configured (answers (js "Olá")) = (Some r, log) /\
    (View.alert_shown s' = true <-> Proxy.resp_status r <> 200%N) /\
    (View.key_help_shown s' = true <->
     Proxy.resp_status r = 401%N \/
     (Proxy.resp_status r = 500%N /\
      Maybe.truthy (Proxy.OPENAI_API_KEY not_configured) = false)).
Proof.
  apply (key_help_is_shown node_object_prototype not_configured (answers (js "Olá"))
           (typed (js "Hello")) (reading 1)).
  vm_compute. discriminate.
Defined.

(** X10 at the scenario: [Hello], from [pt] to [en] as the page starts. *)
Lemma translate_end_to_end_run :
  Wire.translate node_object_prototype configured (answers (js "  Hello there
")) (typed (js "Olá")) (reading 1730000000000) =
    Some
      ({| sourceText := js "Olá"; translatedText := js "Hello there";
          sourceLang := js "pt"; targetLang := js "en";
          isTranslating := false;
          history := [ {| id := js "1730000000000"; from := js "pt"; to := js "en";
                          original := js "Olá"; translated := js "Hello there";
                          timestamp := 1730000000000 |} ];
          showHistory := false; copied := false; apiError := None |},
       [ fetch (js "/api/translate")
               {| req_text := js "Olá"; req_sourceLang := js "pt"; req_targetLang := js "en" |};
         toast_success (js "Tradução concluída!") ],
       [ Proxy.completions_create
           {| Proxy.call_apiKey := Some (js "sk-test");
              Proxy.call_request :=
                Proxy.chat_request (js "Traduza o seguinte texto de Português para Inglês. 
Retorne APENAS a tradução, sem explicações ou texto adicional.

Texto: Olá") |} ]).
Proof.
  refine (eq_trans
            (translate_end_to_end node_object_prototype configured
               (answers (js "  Hello there
")) (typed (js "Olá")) (reading 1730000000000)
               {| Proxy.choices :=
                    [ {| Proxy.choice_message :=
                           Some {| Proxy.msg_content := Some (js "  Hello there
") |} |} ] |}
               _ eq_refl eq_refl eq_refl eq_refl) _).
  - vm_compute. discriminate.
  - vm_compute. reflexivity.
Defined.

End FurtherRuns.
